(** * codex-cli MCP bridge: [src/codex-cli/src/utils/agent/mcp.ts]

    A shallow embedding of the two exported functions of the module,
    [getMcpToolDefinitions] and [handleMcpFunctionCall], together with the
    fragment of JavaScript they run on, and the properties of the module
    stated in its specification.

    Modelling conventions.
    - JavaScript values are the JSON data values plus [undefined]; an object
      is the list of its own enumerable properties in property order, a
      property read is a read of an own property (the names the module reads,
      [name], [args], [content], [text], [url], are inherited from no
      built-in prototype).
    - A JavaScript number is an exact rational.  The module only forms
      [Date.now()] differences, divides them by 100 and by 10 and rounds;
      binary64 rounding, infinities, NaN and the sign of zero are outside
      the model.  (Clock readings are integers below 2^53, their
      difference [e] is exact, and as long as [e] stays below 10^15 ms the
      binary64 quotient [e / 100] lies on the same side of every half
      integer as the exact one, so that [Math.round] gives the same
      integer [n]; [n / 10] is then the double nearest to that decimal,
      which prints as that decimal.)
    - A JavaScript string is a Rocq [string]; non-ASCII text is its UTF-8
      byte sequence.
    - The registry and the client cache are finite maps keyed by server
      name, read by own key.  The reads [servers[serverName]] and
      [mcpClients[serverName]] of the code also find the members that a
      plain object inherits from [Object.prototype]; the maps agree with
      them for every other name, and a property that depends on that
      agreement has the hypothesis [inherited_member serverName = false].
    - An [async] function is run to completion, and calls do not overlap:
      a rejected promise is an abrupt completion ([Abrupt]), a fulfilled
      one a normal completion.
      The transport, the URL parser and the clock are an environment whose
      answers may depend on everything that happened before. *)

From Stdlib Require Import ZArith QArith Qround Qabs Lqa String Ascii List Lia DecimalString.
From stdpp Require Import base gmap strings.

Set Warnings "-register-all".
Local Open Scope string_scope.
Local Open Scope list_scope.

(** ** The JavaScript fragment *)

Module JS.

Inductive value : Type :=
| VUndefined
| VNull
| VBool (b : bool)
| VNum (q : Q)
| VStr (s : string)
| VArr (elems : list value)
| VObj (props : list (string * value)).

(** What a [throw] carries: an instance of [Error] (the built-in
    [TypeError]s included) or any other value. *)
Inductive thrown : Type :=
| ErrorObj (name message : string)
| ThrownValue (v : value).

Inductive completion (A : Type) : Type :=
| Normal (a : A)
| Abrupt (e : thrown).
Arguments Normal {A} a.
Arguments Abrupt {A} e.

Definition TypeError (message : string) : thrown := ErrorObj "TypeError" message.

(** Rocq string literals cannot hold a double quote conveniently; JSON
    texts are written with ['] and converted by [dq]. *)
Definition dquote : ascii := "034"%char.

Fixpoint dq (s : string) : string :=
  match s with
  | EmptyString => EmptyString
  | String c s' => String (if Ascii.eqb c "'" then dquote else c) (dq s')
  end.

(** *** Numbers *)

Definition digits (z : Z) : string := NilEmpty.string_of_uint (N.to_uint (Z.to_N z)).

Definition pow10 (n : Z) : Q :=
  if (0 <=? n)%Z then inject_Z (10 ^ n) else 1 # Z.to_pos (10 ^ (- n)).

(** For [q > 0], the [n] with [10^(n-1) <= q < 10^n]. *)
Definition decimal_exponent (q : Q) : Z :=
  let n0 := (Z.of_nat (String.length (digits (Qnum q)))
             - Z.of_nat (String.length (digits (Zpos (Qden q)))))%Z in
  if Qle_bool (pow10 n0) q then (n0 + 1)%Z else n0.

Fixpoint drop_zeros (l : list ascii) : list ascii :=
  match l with
  | c :: l' => if Ascii.eqb c "0" then drop_zeros l' else l
  | [] => []
  end.

Definition strip_trailing_zeros (s : string) : string :=
  string_of_list_ascii (rev (drop_zeros (rev (list_ascii_of_string s)))).

Fixpoint zeros (n : nat) : string :=
  match n with O => "" | S n' => String "0" (zeros n') end.

(** [Number::toString] on the digits [ds] of the significand and the
    decimal exponent [n] (ECMA-262, 6.1.6.1.20, steps 6 to 10). *)
Definition format_number (ds : string) (n : Z) : string :=
  let k := Z.of_nat (String.length ds) in
  if ((k <=? n) && (n <=? 21))%Z then
    ds +:+ zeros (Z.to_nat (n - k))
  else if ((0 <? n) && (n <=? 21))%Z then
    substring 0 (Z.to_nat n) ds +:+ "." +:+ substring (Z.to_nat n) (Z.to_nat (k - n)) ds
  else if ((-6 <? n) && (n <=? 0))%Z then
    "0." +:+ zeros (Z.to_nat (- n)) +:+ ds
  else
    let e := (n - 1)%Z in
    let es := (if (e <? 0)%Z then "-" else "+") +:+ digits (Z.abs e) in
    if (k =? 1)%Z then ds +:+ "e" +:+ es
    else substring 0 1 ds +:+ "." +:+ substring 1 (Z.to_nat (k - 1)) ds +:+ "e" +:+ es.

(** The significand is cut at 17 decimal digits, which every decimal a
    JSON text of ordinary size denotes fits in. *)
Definition Number_toString_pos (q : Q) : string :=
  let n := decimal_exponent q in
  let s := Qfloor (q * pow10 (17 - n)) in
  format_number (strip_trailing_zeros (digits s)) n.

Definition Number_toString (q : Q) : string :=
  match Qnum q with
  | Z0 => "0"
  | Zpos _ => Number_toString_pos q
  | Zneg _ => "-" +:+ Number_toString_pos (- q)
  end.

(** [Math.round]: the nearest integer, a tie going to the larger one. *)
Definition Math_round (q : Q) : Q := inject_Z (Qfloor (q + (1 # 2))).

(** Arithmetic keeps numbers in lowest terms, so that equal numbers are
    equal terms. *)
Definition num_sub (a b : Q) : Q := Qred (a - b).
Definition num_div (a b : Q) : Q := Qred (a / b).

(** *** Strings *)

Definition hex_digit (n : N) : ascii :=
  match String.get (N.to_nat n) "0123456789abcdef" with
  | Some c => c
  | None => "0"%char
  end.

(** [QuoteJSONString] on one character. *)
Definition quote_char (c : ascii) : string :=
  let n := N_of_ascii c in
  if Ascii.eqb c dquote then String "\" (String dquote "")
  else if Ascii.eqb c "\" then "\\"
  else if (n =? 8)%N then "\b"
  else if (n =? 12)%N then "\f"
  else if (n =? 10)%N then "\n"
  else if (n =? 13)%N then "\r"
  else if (n =? 9)%N then "\t"
  else if (n <? 32)%N then
    "\u00" +:+ String (hex_digit (n / 16)) (String (hex_digit (n mod 16)) "")
  else String c "".

Fixpoint quote_chars (s : string) : string :=
  match s with
  | EmptyString => ""
  | String c s' => quote_char c +:+ quote_chars s'
  end.

Definition QuoteJSONString (s : string) : string :=
  String dquote (quote_chars s) +:+ String dquote "".

(** *** Objects *)

Fixpoint lookup_prop (k : string) (props : list (string * value)) : option value :=
  match props with
  | [] => None
  | (k', v) :: rest => if String.eqb k k' then Some v else lookup_prop k rest
  end.

Definition has_prop (k : string) (props : list (string * value)) : bool :=
  match lookup_prop k props with Some _ => true | None => false end.

Fixpoint all_digits (s : string) : bool :=
  match s with
  | EmptyString => true
  | String c s' =>
      ((48 <=? N_of_ascii c) && (N_of_ascii c <=? 57))%N && all_digits s'
  end.

Fixpoint decimal_value (acc : N) (s : string) : N :=
  match s with
  | EmptyString => acc
  | String c s' => decimal_value (acc * 10 + (N_of_ascii c - 48))%N s'
  end.

(** A property key that is a canonical array index (ECMA-262, 6.1.7):
    such keys come first, in ascending order, in the property order of an
    object. *)
Definition array_index (k : string) : option N :=
  match k with
  | EmptyString => None
  | String c rest =>
      if all_digits k
         && (negb (Ascii.eqb c "0") || String.eqb rest "")
         && (String.length k <=? 10)%nat
      then
        let n := decimal_value 0 k in
        if (n <? 4294967295)%N then Some n else None
      else None
  end.

(** Does key [k] come strictly before key [k'] in property order, when
    [k'] is already there and [k] is new? *)
Definition key_before (k k' : string) : bool :=
  match array_index k, array_index k' with
  | Some n, Some n' => (n <? n')%N
  | Some _, None => true
  | None, _ => false
  end.

(** [CreateDataProperty]: overwrite in place, or add in property order. *)
Fixpoint set_prop (k : string) (v : value) (props : list (string * value))
  : list (string * value) :=
  match props with
  | [] => [(k, v)]
  | (k', v') :: rest =>
      if String.eqb k k' then (k, v) :: rest
      else if key_before k k' then (k, v) :: (k', v') :: rest
      else (k', v') :: set_prop k v rest
  end.

Definition index_key (i : nat) : string := digits (Z.of_nat i).

Fixpoint indexed {A : Type} (i : nat) (l : list A) : list (string * A) :=
  match l with
  | [] => []
  | x :: l' => (index_key i, x) :: indexed (S i) l'
  end.

Fixpoint chars (s : string) : list value :=
  match s with
  | EmptyString => []
  | String c s' => VStr (String c "") :: chars s'
  end.

(** The own enumerable properties of a value that is neither [undefined]
    nor [null] ([ToObject] followed by [OwnPropertyKeys]). *)
Definition own_props (v : value) : list (string * value) :=
  match v with
  | VObj props => props
  | VArr elems => indexed 0 elems
  | VStr s => indexed 0 (chars s)
  | _ => []
  end.

(** [v[k]] for a key [k] that no built-in prototype defines. *)
Definition Get (v : value) (k : string) : completion value :=
  match v with
  | VUndefined =>
      Abrupt (TypeError ("Cannot read properties of undefined (reading '" +:+ k +:+ "')"))
  | VNull =>
      Abrupt (TypeError ("Cannot read properties of null (reading '" +:+ k +:+ "')"))
  | VArr elems =>
      if String.eqb k "length" then Normal (VNum (inject_Z (Z.of_nat (length elems))))
      else Normal (default VUndefined (lookup_prop k (own_props v)))
  | VStr s =>
      if String.eqb k "length" then Normal (VNum (inject_Z (Z.of_nat (String.length s))))
      else Normal (default VUndefined (lookup_prop k (own_props v)))
  | _ => Normal (default VUndefined (lookup_prop k (own_props v)))
  end.

Definition is_nullish (v : value) : bool :=
  match v with VUndefined | VNull => true | _ => false end.

(** [a ?? b] *)
Definition nullish_coalesce (a b : value) : value :=
  if is_nullish a then b else a.

Definition is_string (v : value) : bool :=
  match v with VStr _ => true | _ => false end.

Definition Array_isArray (v : value) : bool :=
  match v with VArr _ => true | _ => false end.

(** *** Conversion to string *)

(** [Array.prototype.join]: [undefined] and [null] elements give the empty
    string, the others are converted by [f]; the first conversion that
    throws ends the join. *)
Definition join_with (f : value -> completion string) (sep : string)
  : list value -> completion string :=
  fix go (l : list value) : completion string :=
    match l with
    | [] => Normal ""
    | x :: rest =>
        match (if is_nullish x then Normal "" else f x) with
        | Abrupt e => Abrupt e
        | Normal s =>
            match rest with
            | [] => Normal s
            | _ :: _ =>
                match go rest with
                | Abrupt e => Abrupt e
                | Normal t => Normal (s +:+ sep +:+ t)
                end
            end
        end
    end.

(** [ToString].  An object's [toString] is [Object.prototype.toString]
    unless it has an own property of that name, which, being data, is not
    callable: [OrdinaryToPrimitive] then finds no usable method. *)
Fixpoint ToString (v : value) : completion string :=
  match v with
  | VUndefined => Normal "undefined"
  | VNull => Normal "null"
  | VBool b => Normal (if b then "true" else "false")
  | VNum q => Normal (Number_toString q)
  | VStr s => Normal s
  | VArr elems => join_with ToString "," elems
  | VObj props =>
      if has_prop "toString" props
      then Abrupt (TypeError "Cannot convert object to primitive value")
      else Normal "[object Object]"
  end.

Definition Array_join (elems : list value) (sep : string) : completion string :=
  join_with ToString sep elems.

(** *** JSON.stringify *)

Definition comma_separated (parts : list string) : string := String.concat "," parts.

Definition is_undefined (v : value) : bool :=
  match v with VUndefined => true | _ => false end.

(** [SerializeJSONProperty] of a value that is not [undefined]: inside an
    array [undefined] is written [null], inside an object a property whose
    value is [undefined] is left out. *)
Fixpoint SerializeJSON (v : value) : string :=
  match v with
  | VUndefined => "null"
  | VNull => "null"
  | VBool b => if b then "true" else "false"
  | VNum q => Number_toString q
  | VStr s => QuoteJSONString s
  | VArr elems => "[" +:+ comma_separated (map SerializeJSON elems) +:+ "]"
  | VObj props =>
      "{" +:+ comma_separated
                (omap (fun kv : string * value =>
                         if is_undefined (snd kv) then None
                         else Some (QuoteJSONString (fst kv) +:+ ":" +:+ SerializeJSON (snd kv)))
                      props)
          +:+ "}"
  end.

(** [JSON.stringify(v)]; [None] is [undefined]. *)
Definition JSON_stringify (v : value) : option string :=
  if is_undefined v then None else Some (SerializeJSON v).

(** *** JSON.parse *)

Definition is_ws (c : ascii) : bool :=
  let n := N_of_ascii c in ((n =? 32) || (n =? 9) || (n =? 10) || (n =? 13))%N.

Fixpoint skip_ws (l : list ascii) : list ascii :=
  match l with
  | c :: l' => if is_ws c then skip_ws l' else l
  | [] => []
  end.

Definition is_digit (c : ascii) : bool :=
  ((48 <=? N_of_ascii c) && (N_of_ascii c <=? 57))%N.

Fixpoint take_digits (l : list ascii) : list ascii * list ascii :=
  match l with
  | c :: l' =>
      if is_digit c then let '(ds, r) := take_digits l' in (c :: ds, r) else ([], l)
  | [] => ([], [])
  end.

Definition digits_value (ds : list ascii) : Z :=
  fold_left (fun acc c => (acc * 10 + Z.of_N (N_of_ascii c - 48))%Z) ds 0%Z.

Fixpoint strip_prefix (p l : list ascii) : option (list ascii) :=
  match p, l with
  | [], _ => Some l
  | c :: p', d :: l' => if Ascii.eqb c d then strip_prefix p' l' else None
  | _ :: _, [] => None
  end.

(** A JSON number: an optional minus sign, an integer part without a
    leading zero, an optional fraction and an optional exponent. *)
Definition parse_number (l : list ascii) : option (Q * list ascii) :=
  let '(neg, l1) :=
    match l with
    | c :: r => if Ascii.eqb c "-" then (true, r) else (false, l)
    | [] => (false, l)
    end in
  let '(ip, l2) := take_digits l1 in
  let leading_zero :=
    match ip with
    | c :: _ :: _ => Ascii.eqb c "0"
    | _ => false
    end in
  match ip with
  | [] => None
  | _ :: _ =>
      if leading_zero then None else
      let frac :=
        match l2 with
        | c :: r =>
            if Ascii.eqb c "." then
              let '(fp, r') := take_digits r in
              match fp with [] => None | _ :: _ => Some (fp, r') end
            else Some ([], l2)
        | [] => Some ([], l2)
        end in
      match frac with
      | None => None
      | Some (fp, l3) =>
          let expo :=
            match l3 with
            | c :: r =>
                if Ascii.eqb c "e" || Ascii.eqb c "E" then
                  let '(eneg, r1) :=
                    match r with
                    | s :: r' =>
                        if Ascii.eqb s "-" then (true, r')
                        else if Ascii.eqb s "+" then (false, r')
                        else (false, r)
                    | [] => (false, r)
                    end in
                  let '(ep, r2) := take_digits r1 in
                  match ep with
                  | [] => None
                  | _ :: _ =>
                      Some ((if eneg then - digits_value ep else digits_value ep)%Z, r2)
                  end
                else Some (0%Z, l3)
            | [] => Some (0%Z, l3)
            end in
          match expo with
          | None => None
          | Some (e, l4) =>
              let m := digits_value (ip ++ fp) in
              let q := (inject_Z m * pow10 (e - Z.of_nat (length fp)))%Q in
              Some (Qred (if neg then - q else q), l4)
          end
      end
  end.

Definition hex_value (c : ascii) : option N :=
  let n := N_of_ascii c in
  if ((48 <=? n) && (n <=? 57))%N then Some (n - 48)%N
  else if ((97 <=? n) && (n <=? 102))%N then Some (n - 87)%N
  else if ((65 <=? n) && (n <=? 70))%N then Some (n - 55)%N
  else None.

(** Four hexadecimal digits: one UTF-16 code unit. *)
Definition hex4 (l : list ascii) : option (N * list ascii) :=
  match l with
  | a :: b :: c :: d :: r =>
      match hex_value a, hex_value b, hex_value c, hex_value d with
      | Some x, Some y, Some z, Some w => Some (((x * 16 + y) * 16 + z) * 16 + w, r)%N
      | _, _, _, _ => None
      end
  | _ => None
  end.

Definition byte (n : N) : ascii := ascii_of_N n.

Definition utf8_encode (cp : N) : list ascii :=
  if (cp <? 128)%N then [byte cp]
  else if (cp <? 2048)%N then [byte (192 + cp / 64); byte (128 + cp mod 64)]
  else if (cp <? 65536)%N then
    [byte (224 + cp / 4096); byte (128 + (cp / 64) mod 64); byte (128 + cp mod 64)]
  else
    [byte (240 + cp / 262144); byte (128 + (cp / 4096) mod 64);
     byte (128 + (cp / 64) mod 64); byte (128 + cp mod 64)].

(** A \u escape, with the low surrogate that may follow a high one. *)
Definition parse_unicode_escape (l : list ascii) : option (list ascii * list ascii) :=
  match hex4 l with
  | None => None
  | Some (u, r) =>
      let single := Some (utf8_encode u, r) in
      if ((55296 <=? u) && (u <? 56320))%N then
        match strip_prefix ["\"; "u"]%char r with
        | Some r1 =>
            match hex4 r1 with
            | Some (u2, r2) =>
                if ((56320 <=? u2) && (u2 <? 57344))%N
                then Some (utf8_encode (65536 + (u - 55296) * 1024 + (u2 - 56320)), r2)
                else single
            | None => single
            end
        | None => single
        end
      else single
  end.

(** The characters of a string literal after its opening quote. *)
Fixpoint parse_string_chars (fuel : nat) (acc : list ascii) (l : list ascii)
  : option (string * list ascii) :=
  match fuel with
  | O => None
  | S fuel' =>
      match l with
      | [] => None
      | c :: r =>
          if Ascii.eqb c dquote then Some (string_of_list_ascii (rev acc), r)
          else if Ascii.eqb c "\" then
            match r with
            | [] => None
            | e :: r' =>
                let simple (x : ascii) := parse_string_chars fuel' (x :: acc) r' in
                if Ascii.eqb e dquote then simple dquote
                else if Ascii.eqb e "\" then simple "\"%char
                else if Ascii.eqb e "/" then simple "/"%char
                else if Ascii.eqb e "b" then simple (byte 8)
                else if Ascii.eqb e "f" then simple (byte 12)
                else if Ascii.eqb e "n" then simple (byte 10)
                else if Ascii.eqb e "r" then simple (byte 13)
                else if Ascii.eqb e "t" then simple (byte 9)
                else if Ascii.eqb e "u" then
                  match parse_unicode_escape r' with
                  | Some (bs, r'') => parse_string_chars fuel' (rev bs ++ acc) r''
                  | None => None
                  end
                else None
            end
          else if (N_of_ascii c <? 32)%N then None
          else parse_string_chars fuel' (c :: acc) r
      end
  end.

Definition parse_string (l : list ascii) : option (string * list ascii) :=
  parse_string_chars (length l) [] l.

Definition parser : Type := list ascii -> option (value * list ascii).

(** The elements of an array after its opening bracket, the array not
    being empty. *)
Fixpoint parse_elements (fuel : nat) (pv : parser) (acc : list value) (l : list ascii)
  : option (value * list ascii) :=
  match fuel with
  | O => None
  | S fuel' =>
      match pv l with
      | None => None
      | Some (v, r) =>
          match skip_ws r with
          | c :: r' =>
              if Ascii.eqb c "," then parse_elements fuel' pv (v :: acc) r'
              else if Ascii.eqb c "]" then Some (VArr (rev (v :: acc)), r')
              else None
          | [] => None
          end
      end
  end.

(** The members of an object after its opening brace, the object not
    being empty.  A repeated key overwrites ([CreateDataProperty]). *)
Fixpoint parse_members (fuel : nat) (pv : parser) (acc : list (string * value))
  (l : list ascii) : option (value * list ascii) :=
  match fuel with
  | O => None
  | S fuel' =>
      match skip_ws l with
      | q :: r =>
          if Ascii.eqb q dquote then
            match parse_string r with
            | None => None
            | Some (k, r1) =>
                match skip_ws r1 with
                | c :: r2 =>
                    if Ascii.eqb c ":" then
                      match pv r2 with
                      | None => None
                      | Some (v, r3) =>
                          match skip_ws r3 with
                          | d :: r4 =>
                              if Ascii.eqb d "," then
                                parse_members fuel' pv (set_prop k v acc) r4
                              else if Ascii.eqb d "}" then
                                Some (VObj (set_prop k v acc), r4)
                              else None
                          | [] => None
                          end
                      end
                    else None
                | [] => None
                end
            end
          else None
      | [] => None
      end
  end.

Definition literal (name : string) (v : value) (l : list ascii)
  : option (value * list ascii) :=
  match strip_prefix (list_ascii_of_string name) l with
  | Some r => Some (v, r)
  | None => None
  end.

Fixpoint parse_value (fuel : nat) (l : list ascii) : option (value * list ascii) :=
  match fuel with
  | O => None
  | S fuel' =>
      match skip_ws l with
      | [] => None
      | c :: r =>
          if Ascii.eqb c "{" then
            match skip_ws r with
            | d :: r' =>
                if Ascii.eqb d "}" then Some (VObj [], r')
                else parse_members fuel' (parse_value fuel') [] r
            | [] => None
            end
          else if Ascii.eqb c "[" then
            match skip_ws r with
            | d :: r' =>
                if Ascii.eqb d "]" then Some (VArr [], r')
                else parse_elements fuel' (parse_value fuel') [] r
            | [] => None
            end
          else if Ascii.eqb c dquote then
            match parse_string r with
            | Some (s, r') => Some (VStr s, r')
            | None => None
            end
          else if Ascii.eqb c "t" then literal "true" (VBool true) (c :: r)
          else if Ascii.eqb c "f" then literal "false" (VBool false) (c :: r)
          else if Ascii.eqb c "n" then literal "null" VNull (c :: r)
          else
            match parse_number (c :: r) with
            | Some (q, r') => Some (VNum q, r')
            | None => None
            end
      end
  end.

(** [JSON.parse] without a reviver; [None] is the [SyntaxError]. *)
Definition JSON_parse (text : string) : option value :=
  let l := list_ascii_of_string text in
  match parse_value (S (length l)) l with
  | Some (v, r) => match skip_ws r with [] => Some v | _ :: _ => None end
  | None => None
  end.

End JS.

(** ** The module [mcp.ts] *)

Module Mcp.
Import JS.

(** *** Data *)

(** [{ url: string }] *)
Record ServerConfig : Type := { url : string }.

(** [Record<string, { url: string }>]: the entries of the object in its
    iteration order, as [Object.entries] lists them. *)
Definition Registry : Type := list (string * ServerConfig).

(** The names of the members of [Object.prototype], which every plain
    object inherits, the registry and [mcpClients] included; their values
    are functions, or the prototype itself, all of them truthy. *)
Definition Object_prototype_members : list string :=
  ["constructor"; "__defineGetter__"; "__defineSetter__"; "hasOwnProperty";
   "__lookupGetter__"; "__lookupSetter__"; "isPrototypeOf"; "propertyIsEnumerable";
   "toString"; "valueOf"; "__proto__"; "toLocaleString"].

Definition inherited_member (k : string) : bool :=
  existsb (String.eqb k) Object_prototype_members.

(** [servers[serverName]], read by own key: the read of the code for
    every name that is not an [inherited_member]. *)
Fixpoint registry_get (servers : Registry) (serverName : string) : option ServerConfig :=
  match servers with
  | [] => None
  | (k, cfg) :: rest => if String.eqb serverName k then Some cfg else registry_get rest serverName
  end.

(** An SDK [Client]: the implementation info it was constructed with and,
    once [connect] has succeeded, the URL of its transport. *)
Record Client : Type := {
  client_name : string;
  client_version : string;
  client_transport : option string
}.

(** [ResponseInputItem.FunctionCallOutput] *)
Record FunctionCallOutput : Type := {
  type : string;
  call_id : string;
  output : string
}.

(** *** The environment and the module state *)

(** What the module does to the outside world, with the answer it got. *)
Inductive event : Type :=
| Connect (c : Client) (transport : string) (result : completion unit)
| CallTool (c : Client) (name : string) (arguments : value) (result : completion value)
| Now (t : Z).

(** The outside world.  [ORIGIN] and [CLI_VERSION] are the constants of
    [../session.js]; [URL_valid] tells whether [new URL(s)] succeeds;
    [connect], [callTool] and [Date_now] answer from the history so far. *)
Record Env : Type := {
  ORIGIN : string;
  CLI_VERSION : string;
  URL_valid : string -> bool;
  connect : list event -> Client -> string -> completion unit;
  callTool : list event -> Client -> string -> value -> completion value;
  Date_now : list event -> Z
}.

(** The module-level [mcpClients] and the history of the process. *)
Record State : Type := {
  mcpClients : gmap string Client;
  history : list event
}.

Definition initial_state : State := {| mcpClients := ∅; history := [] |}.

(** *** Computations: state and exceptions *)

Definition M (A : Type) : Type := State -> completion A * State.

Definition ret {A : Type} (a : A) : M A := fun s => (Normal a, s).

Definition throw {A : Type} (e : thrown) : M A := fun s => (Abrupt e, s).

Definition bind {A B : Type} (m : M A) (k : A -> M B) : M B :=
  fun s =>
    match m s with
    | (Normal a, s') => k a s'
    | (Abrupt e, s') => (Abrupt e, s')
    end.

(** [try { m } catch (err) { handler err }] *)
Definition try_catch {A : Type} (m : M A) (handler : thrown -> M A) : M A :=
  fun s =>
    match m s with
    | (Normal a, s') => (Normal a, s')
    | (Abrupt e, s') => handler e s'
    end.

Definition lift {A : Type} (c : completion A) : M A := fun s => (c, s).

Notation "'let*' x ':=' m 'in' k" := (bind m (fun x => k))
  (at level 10, x pattern, m at level 100, k at level 200, only parsing).

Definition record_event (ev : event) (s : State) : State :=
  {| mcpClients := mcpClients s; history := history s ++ [ev] |}.

Definition connected (client : Client) (transport : string) : Client :=
  {| client_name := client_name client;
     client_version := client_version client;
     client_transport := Some transport |}.

Section WithEnv.
Variable env : Env.

(** [mcpClients[serverName]], read by own key: the read of the code for
    every name that is not an [inherited_member]. *)
Definition get_client (serverName : string) : M (option Client) :=
  fun s => (Normal (mcpClients s !! serverName), s).

(** [mcpClients[serverName] = client] *)
Definition set_client (serverName : string) (client : Client) : M unit :=
  fun s => (Normal tt,
            {| mcpClients := <[serverName := client]> (mcpClients s);
               history := history s |}).

(** [new URL(s)] *)
Definition new_URL (s : string) : M string :=
  if URL_valid env s then ret s else throw (TypeError "Invalid URL").

(** [new Client({name: ORIGIN, version: CLI_VERSION})] *)
Definition new_Client : Client :=
  {| client_name := ORIGIN env; client_version := CLI_VERSION env;
     client_transport := None |}.

(** [await client.connect(transport)]: the client now holds the transport. *)
Definition client_connect (client : Client) (transport : string) : M Client :=
  fun s =>
    let r := connect env (history s) client transport in
    let s' := record_event (Connect client transport r) s in
    match r with
    | Normal _ => (Normal (connected client transport), s')
    | Abrupt e => (Abrupt e, s')
    end.

(** [await client.callTool({name, arguments})] *)
Definition client_callTool (client : Client) (name : string) (arguments : value)
  : M value :=
  fun s =>
    let r := callTool env (history s) client name arguments in
    (r, record_event (CallTool client name arguments r) s).

(** [Date.now()] *)
Definition now : M Z :=
  fun s => let t := Date_now env (history s) in (Normal t, record_event (Now t) s).

(** *** Schema generator *)

(** The object literal of [getMcpToolDefinitions]. *)
Definition tool_definition (serverName : string) : value :=
  VObj [("type", VStr "function");
        ("name", VStr serverName);
        ("description", VStr ("Call remote MCP server '" +:+ serverName +:+ "' tool"));
        ("strict", VBool false);
        ("parameters",
          VObj [("type", VStr "object");
                ("properties",
                  VObj [("name", VObj [("type", VStr "string");
                                       ("description", VStr "Tool name")]);
                        ("args", VObj [("type", VStr "object");
                                       ("description", VStr "Tool args")])]);
                ("required", VArr [VStr "name"; VStr "args"]);
                ("additionalProperties", VBool false)])].

Definition getMcpToolDefinitions (servers : option Registry) : list value :=
  match servers with
  | None => []
  | Some servers => map (fun '(serverName, _) => tool_definition serverName) servers
  end.

(** *** Call router *)

(** The rest element [...other] of the pattern: the own enumerable
    properties other than [name] and [args], in property order. *)
Definition rest_fields (props : list (string * value)) : list (string * value) :=
  filter (fun kv : string * value =>
            negb (String.eqb (fst kv) "name" || String.eqb (fst kv) "args"))
         props.

(** [const {name: toolName, args, ...other} = parsed].  The pattern
    cannot be matched against [undefined] or [null]; the messages are
    those of V8. *)
Definition destructure (parsed : value) : completion (value * value * value) :=
  match parsed with
  | VUndefined =>
      Abrupt (TypeError
        "Cannot destructure property 'name' of 'parsed' as it is undefined.")
  | VNull =>
      Abrupt (TypeError
        "Cannot destructure property 'name' of 'parsed' as it is null.")
  | _ =>
      let props := own_props parsed in
      Normal (default VUndefined (lookup_prop "name" props),
              default VUndefined (lookup_prop "args" props),
              VObj (rest_fields props))
  end.

(** The separator of [join("\n")]: a line feed. *)
Definition LF : string := String (byte 10) "".

(** [content.map((c) => c.text)] *)
Fixpoint map_text (content : list value) : completion (list value) :=
  match content with
  | [] => Normal []
  | c :: rest =>
      match Get c "text" with
      | Abrupt e => Abrupt e
      | Normal t =>
          match map_text rest with
          | Abrupt e => Abrupt e
          | Normal ts => Normal (t :: ts)
          end
      end
  end.

(** The [outputText] of a response. *)
Definition outputText (response : value) : completion value :=
  match Get response "content" with
  | Abrupt e => Abrupt e
  | Normal (VArr content) =>
      match map_text content with
      | Abrupt e => Abrupt e
      | Normal texts =>
          match Array_join texts LF with
          | Abrupt e => Abrupt e
          | Normal s => Normal (VStr s)
          end
      end
  | Normal _ =>
      Normal (match JSON_stringify response with
              | Some s => VStr s
              | None => VUndefined
              end)
  end.

(** [err instanceof Error ? err.message : String(err)] *)
Definition error_message (err : thrown) : completion string :=
  match err with
  | ErrorObj _ message => Normal message
  | ThrownValue v => ToString v
  end.

(** [Math.round((Date.now() - start) / 100) / 10] on the two clock
    readings. *)
Definition duration (start finish : Z) : Q :=
  num_div (Math_round (num_div (num_sub (inject_Z finish) (inject_Z start)) 100)) 10.

Definition formatRaw (callId : string) (raw : string) : list FunctionCallOutput :=
  [ {| type := "function_call_output"; call_id := callId; output := raw |} ].

(** The object literal is never [undefined], so that [JSON.stringify]
    gives its serialization. *)
Definition formatOutput (callId : string) (output : value) (exit_code : Q)
  (duration_seconds : Q) : FunctionCallOutput :=
  {| type := "function_call_output";
     call_id := callId;
     output := SerializeJSON
                 (VObj [("output", output);
                        ("metadata", VObj [("exit_code", VNum exit_code);
                                           ("duration_seconds", VNum duration_seconds)])]) |}.

(** Lines 74 to 81: the client of [serverName], connected on first use. *)
Definition ensure_client (config : ServerConfig) (serverName : string) : M unit :=
  let* cached := get_client serverName in
  match cached with
  | Some _ => ret tt
  | None =>
      let client := new_Client in
      let* transport := new_URL (url config) in
      let* client := client_connect client transport in
      set_client serverName client
  end.

(** Lines 83 to 99: the timed tool call and its output record. *)
Definition call_tool_and_format (callId serverName toolName : string) (callArgs : value)
  : M (list FunctionCallOutput) :=
  let* start := now in
  let getDuration : M Q :=
    let* finish := now in ret (duration start finish) in
  try_catch
    (let* client := get_client serverName in
     match client with
     | None =>
         throw (TypeError "Cannot read properties of undefined (reading 'callTool')")
     | Some client =>
         let* response := client_callTool client toolName callArgs in
         let* text := lift (outputText response) in
         let* d := getDuration in
         ret [formatOutput callId text 0 d]
     end)
    (fun err =>
       let* msg := lift (error_message err) in
       let* d := getDuration in
       ret [formatOutput callId (VStr ("MCP error: " +:+ msg)) 1 d]).

Definition handleMcpFunctionCall (servers : Registry) (serverName : string)
  (rawArguments : option string) (callId : string) : M (list FunctionCallOutput) :=
  let paramsRaw := default "{}" rawArguments in
  match registry_get servers serverName with
  | None => ret (formatRaw callId paramsRaw)
  | Some config =>
      match JSON_parse paramsRaw with
      | None => ret (formatRaw callId paramsRaw)
      | Some parsed =>
          let* (toolName, args, other) := lift (destructure parsed) in
          match toolName with
          | VStr toolName =>
              let callArgs := nullish_coalesce args other in
              let* _ := ensure_client config serverName in
              call_tool_and_format callId serverName toolName callArgs
          | _ => ret (formatRaw callId paramsRaw)
          end
      end
  end.

End WithEnv.

(** *** Vocabulary of the specification *)

(** The events that a run from [s] to [s'] added to the history. *)
Definition events_since (s s' : State) : list event :=
  drop (length (history s)) (history s').

Definition is_connect (ev : event) : bool :=
  match ev with Connect _ _ _ => true | _ => false end.

(** Number of connection-establishment calls made on the transport. *)
Definition connects (evs : list event) : nat := length (filter is_connect evs).

(** The Parsed Tool Invocation of a raw argument string: the tool name and
    the arguments of the call, when the string parses to a payload with a
    string [name]. *)
Definition parsed_invocation (rawArguments : option string) : option (string * value) :=
  match JSON_parse (default "{}" rawArguments) with
  | Some parsed =>
      match destructure parsed with
      | Normal (VStr toolName, args, other) => Some (toolName, nullish_coalesce args other)
      | _ => None
      end
  | None => None
  end.

(** The seconds between two clock readings, as the specification words it:
    elapsed milliseconds divided by 100, rounded to the nearest integer,
    divided by 10. *)
Definition duration_seconds_spec (elapsed_ms : Z) : Q :=
  inject_Z (Qfloor (inject_Z elapsed_ms / 100 + (1 # 2))) / 10.

(** The body of a success or failure record, before serialization. *)
Definition envelope (output : value) (exit_code : Q) (duration_seconds : Q) : value :=
  VObj [("output", output);
        ("metadata", VObj [("exit_code", VNum exit_code);
                           ("duration_seconds", VNum duration_seconds)])].

(** The call arguments as the specification words them: [args] if the
    payload has that field, the remaining fields otherwise. *)
Definition callArgs_if_present (props : list (string * value)) : value :=
  match lookup_prop "args" props with
  | Some args => args
  | None => VObj (rest_fields props)
  end.

(** The call arguments when a [null] field counts as a missing one. *)
Definition callArgs_if_not_null (props : list (string * value)) : value :=
  match lookup_prop "args" props with
  | Some args => if is_nullish args then VObj (rest_fields props) else args
  | None => VObj (rest_fields props)
  end.

(** Connection establishment for [config] fails with [e] in state [s]:
    the URL of the server does not parse, or the transport refuses. *)
Definition establishment_fails (env : Env) (config : ServerConfig) (s : State)
  (e : thrown) : Prop :=
  (URL_valid env (url config) = false /\ e = TypeError "Invalid URL") \/
  (URL_valid env (url config) = true /\
   connect env (history s) (new_Client env) (url config) = Abrupt e).

Definition is_callTool (ev : event) : bool :=
  match ev with CallTool _ _ _ _ => true | _ => false end.

(** The shape of a callable-function descriptor for the server
    [serverName], as the specification describes it: type [function], the
    server's key as name, not strict, and a parameter schema that requires
    exactly [name], a string, and [args], an object, and allows no other
    property. *)
Definition descriptor_for (serverName : string) (d : value) : Prop :=
  Get d "type" = Normal (VStr "function") /\
  Get d "name" = Normal (VStr serverName) /\
  Get d "strict" = Normal (VBool false) /\
  exists parameters properties name_schema args_schema : value,
    Get d "parameters" = Normal parameters /\
    Get parameters "type" = Normal (VStr "object") /\
    Get parameters "required" = Normal (VArr [VStr "name"; VStr "args"]) /\
    Get parameters "additionalProperties" = Normal (VBool false) /\
    Get parameters "properties" = Normal properties /\
    map fst (own_props properties) = ["name"; "args"] /\
    Get properties "name" = Normal name_schema /\
    Get name_schema "type" = Normal (VStr "string") /\
    Get properties "args" = Normal args_schema /\
    Get args_schema "type" = Normal (VStr "object").

(** *** The outcomes of the two effectful blocks *)

Definition extend (s : State) (evs : list event) : State :=
  {| mcpClients := mcpClients s; history := history s ++ evs |}.

(** What the [try] block makes of the settled tool call: the output text,
    or what it throws. *)
Definition try_result (r : completion value) : completion value :=
  match r with
  | Normal response => outputText response
  | Abrupt e => Abrupt e
  end.

(** The four ways lines 74 to 81 can go. *)
Inductive ensure_outcome (env : Env) (config : ServerConfig) (serverName : string)
  (s : State) : completion unit -> State -> Prop :=
| ensure_hit c :
    mcpClients s !! serverName = Some c ->
    ensure_outcome env config serverName s (Normal tt) s
| ensure_invalid_url :
    mcpClients s !! serverName = None ->
    URL_valid env (url config) = false ->
    ensure_outcome env config serverName s (Abrupt (TypeError "Invalid URL")) s
| ensure_refused e :
    mcpClients s !! serverName = None ->
    URL_valid env (url config) = true ->
    connect env (history s) (new_Client env) (url config) = Abrupt e ->
    ensure_outcome env config serverName s (Abrupt e)
      (extend s [Connect (new_Client env) (url config) (Abrupt e)])
| ensure_connected :
    mcpClients s !! serverName = None ->
    URL_valid env (url config) = true ->
    connect env (history s) (new_Client env) (url config) = Normal tt ->
    ensure_outcome env config serverName s (Normal tt)
      {| mcpClients := <[serverName := connected (new_Client env) (url config)]> (mcpClients s);
         history := history s ++ [Connect (new_Client env) (url config) (Normal tt)] |}.

(** The ways lines 83 to 99 can go. *)
Inductive call_outcome (env : Env) (callId serverName toolName : string)
  (callArgs : value) (s : State) : completion (list FunctionCallOutput) -> State -> Prop :=
| call_ok c t0 r text t1 :
    mcpClients s !! serverName = Some c ->
    t0 = Date_now env (history s) ->
    r = callTool env (history s ++ [Now t0]) c toolName callArgs ->
    try_result r = Normal text ->
    t1 = Date_now env (history s ++ [Now t0; CallTool c toolName callArgs r]) ->
    call_outcome env callId serverName toolName callArgs s
      (Normal [formatOutput callId text 0 (duration t0 t1)])
      (extend s [Now t0; CallTool c toolName callArgs r; Now t1])
| call_caught c t0 r e msg t1 :
    mcpClients s !! serverName = Some c ->
    t0 = Date_now env (history s) ->
    r = callTool env (history s ++ [Now t0]) c toolName callArgs ->
    try_result r = Abrupt e ->
    error_message e = Normal msg ->
    t1 = Date_now env (history s ++ [Now t0; CallTool c toolName callArgs r]) ->
    call_outcome env callId serverName toolName callArgs s
      (Normal [formatOutput callId (VStr ("MCP error: " +:+ msg)) 1 (duration t0 t1)])
      (extend s [Now t0; CallTool c toolName callArgs r; Now t1])
| call_escaped c t0 r e e' :
    mcpClients s !! serverName = Some c ->
    t0 = Date_now env (history s) ->
    r = callTool env (history s ++ [Now t0]) c toolName callArgs ->
    try_result r = Abrupt e ->
    error_message e = Abrupt e' ->
    call_outcome env callId serverName toolName callArgs s
      (Abrupt e')
      (extend s [Now t0; CallTool c toolName callArgs r])
| call_no_client t0 t1 :
    mcpClients s !! serverName = None ->
    t0 = Date_now env (history s) ->
    t1 = Date_now env (history s ++ [Now t0]) ->
    call_outcome env callId serverName toolName callArgs s
      (Normal [formatOutput callId
                 (VStr "MCP error: Cannot read properties of undefined (reading 'callTool')")
                 1 (duration t0 t1)])
      (extend s [Now t0; Now t1]).

(** The ways a call of [handleMcpFunctionCall] can go. *)
Inductive handle_outcome (env : Env) (servers : Registry) (serverName : string)
  (rawArguments : option string) (callId : string) (s : State)
  : completion (list FunctionCallOutput) -> State -> Prop :=
| handled_unknown_server :
    registry_get servers serverName = None ->
    handle_outcome env servers serverName rawArguments callId s
      (Normal (formatRaw callId (default "{}" rawArguments))) s
| handled_unparseable config :
    registry_get servers serverName = Some config ->
    JSON_parse (default "{}" rawArguments) = None ->
    handle_outcome env servers serverName rawArguments callId s
      (Normal (formatRaw callId (default "{}" rawArguments))) s
| handled_no_tool_name config parsed toolName args other :
    registry_get servers serverName = Some config ->
    JSON_parse (default "{}" rawArguments) = Some parsed ->
    destructure parsed = Normal (toolName, args, other) ->
    is_string toolName = false ->
    handle_outcome env servers serverName rawArguments callId s
      (Normal (formatRaw callId (default "{}" rawArguments))) s
| handled_not_destructurable config parsed e :
    registry_get servers serverName = Some config ->
    JSON_parse (default "{}" rawArguments) = Some parsed ->
    destructure parsed = Abrupt e ->
    handle_outcome env servers serverName rawArguments callId s (Abrupt e) s
| handled_no_connection config toolName callArgs e s' :
    registry_get servers serverName = Some config ->
    parsed_invocation rawArguments = Some (toolName, callArgs) ->
    ensure_outcome env config serverName s (Abrupt e) s' ->
    handle_outcome env servers serverName rawArguments callId s (Abrupt e) s'
| handled_call config toolName callArgs s1 res s' :
    registry_get servers serverName = Some config ->
    parsed_invocation rawArguments = Some (toolName, callArgs) ->
    ensure_outcome env config serverName s (Normal tt) s1 ->
    call_outcome env callId serverName toolName callArgs s1 res s' ->
    handle_outcome env servers serverName rawArguments callId s res s'.

(** *** Vocabulary of further properties *)

(** Number of tool invocations among some events. *)
Definition callTools (evs : list event) : nat := length (filter is_callTool evs).

Definition is_successful_connect (ev : event) : bool :=
  match ev with Connect _ _ (Normal _) => true | _ => false end.

(** Number of connections that were established. *)
Definition established (evs : list event) : nat :=
  length (filter is_successful_connect evs).

(** The states of the module in a process whose calls do not overlap:
    the state at load time, and the state after a call that was started in
    such a state and has settled, whatever its arguments and its outcome.
    Two calls of the [async] function that are in flight at the same time
    are not described. *)
Inductive reachable (env : Env) : State -> Prop :=
| reachable_initial : reachable env initial_state
| reachable_call servers serverName rawArguments callId s res s' :
    reachable env s ->
    handleMcpFunctionCall env servers serverName rawArguments callId s = (res, s') ->
    reachable env s'.

(** A result with the call id of its records replaced. *)
Definition relabel (callId : string) (r : FunctionCallOutput) : FunctionCallOutput :=
  {| type := type r; call_id := callId; output := output r |}.

Definition relabel_result (callId : string) (res : completion (list FunctionCallOutput))
  : completion (list FunctionCallOutput) :=
  match res with
  | Normal records => Normal (map (relabel callId) records)
  | Abrupt e => Abrupt e
  end.

(** The line a content element contributes to the output text, for an
    element that is an object whose [text] is a string, or is missing or
    [null]. *)
Definition line_of (c : value) : option string :=
  match c with
  | VObj props =>
      match lookup_prop "text" props with
      | Some (VStr t) => Some t
      | Some VNull | Some VUndefined | None => Some ""
      | Some _ => None
      end
  | _ => None
  end.

(** The world [env] with another URL parser and another [connect]. *)
Definition with_connection (env : Env) (valid : string -> bool)
  (conn : list event -> Client -> string -> completion unit) : Env :=
  {| ORIGIN := ORIGIN env;
     CLI_VERSION := CLI_VERSION env;
     URL_valid := valid;
     connect := conn;
     callTool := callTool env;
     Date_now := Date_now env |}.

(** *** A concrete world, for examples *)

(** Every URL is valid, every connection succeeds, every tool call gives
    [response], and the clock advances 120 ms per event. *)
Definition demo_env (response : completion value) : Env :=
  {| ORIGIN := "codex";
     CLI_VERSION := "0.1.0";
     URL_valid := fun _ => true;
     connect := fun _ _ _ => Normal tt;
     callTool := fun _ _ _ _ => response;
     Date_now := fun h => (1000 + 120 * Z.of_nat (length h))%Z |}.

(** A world whose connections are refused. *)
Definition offline_env : Env :=
  {| ORIGIN := "codex";
     CLI_VERSION := "0.1.0";
     URL_valid := fun _ => true;
     connect := fun _ _ _ => Abrupt (ErrorObj "Error" "SSE error: connection refused");
     callTool := fun _ _ _ _ => Normal VNull;
     Date_now := fun h => (1000 + 120 * Z.of_nat (length h))%Z |}.

Definition demo_servers : Registry :=
  [("a", {| url := "http://localhost:3001/sse" |});
   ("b", {| url := "http://localhost:3002/sse" |})].

End Mcp.

(** * Properties of the module *)

Import JS Mcp.

(** ** The JavaScript fragment on examples *)

Example JSON_parse_flat_payload :
  JSON_parse (dq "{'name':'t','foo':'bar'}")
  = Some (VObj [("name", VStr "t"); ("foo", VStr "bar")]).
Proof. vm_compute. reflexivity. Qed.

Example JSON_parse_nested_payload :
  JSON_parse (dq " { 'name' : 'echo', 'args' : { 'x' : [1, -2.5e1, true, null] } } ")
  = Some (VObj [("name", VStr "echo");
                ("args", VObj [("x", VArr [VNum 1; VNum (-25); VBool true; VNull])])]).
Proof. vm_compute. reflexivity. Qed.

Example JSON_parse_rejects :
  map JSON_parse ["{"; "01"; "1."; "[1,]"; dq "{'a':1,}"; "tru"; dq "'abc"; "1 2"; ""]
  = [None; None; None; None; None; None; None; None; None].
Proof. vm_compute. reflexivity. Qed.

Example JSON_parse_property_order :
  JSON_parse (dq "{'b':1,'1':2,'b':3}") = Some (VObj [("1", VNum 2); ("b", VNum 3)]).
Proof. vm_compute. reflexivity. Qed.

Example JSON_stringify_envelope :
  JSON_stringify (envelope (VStr (dq "say 'hi'")) 0 (12 # 10))
  = Some (dq "{'output':'say \'hi\'','metadata':{'exit_code':0,'duration_seconds':1.2}}").
Proof. vm_compute. reflexivity. Qed.

Example JSON_round_trip :
  JSON_parse (SerializeJSON (envelope (VStr "hi") 0 (1 # 5)))
  = Some (envelope (VStr "hi") 0 (1 # 5)).
Proof. vm_compute. reflexivity. Qed.

Example Number_toString_examples :
  map Number_toString [0; 1; 1 # 10; 123 # 10; - (5 # 2); 1 # 1000000; 1 # 10000000;
                       inject_Z (10 ^ 20); inject_Z (10 ^ 21)]%Q
  = ["0"; "1"; "0.1"; "12.3"; "-2.5"; "0.000001"; "1e-7";
     "100000000000000000000"; "1e+21"].
Proof. vm_compute. reflexivity. Qed.

Example ToString_examples :
  map ToString [VUndefined; VNull; VBool true; VNum (1 # 2); VStr "s";
                VArr [VNum 1; VNull; VArr [VStr "a"; VUndefined]];
                VObj [("a", VNum 1)]; VObj [("toString", VNum 1)]]
  = [Normal "undefined"; Normal "null"; Normal "true"; Normal "0.5"; Normal "s";
     Normal "1,,a,"; Normal "[object Object]";
     Abrupt (TypeError "Cannot convert object to primitive value")].
Proof. vm_compute. reflexivity. Qed.

Example duration_examples :
  map (fun finish => duration 1000 finish) [1000; 1049; 1050; 1149; 1150; 3500; 950]%Z
  = [0; 0; 1 # 10; 1 # 10; 1 # 5; 5 # 2; 0]%Q.
Proof. vm_compute. reflexivity. Qed.

(** ** The two effectful blocks *)

Lemma events_since_refl (s : State) : events_since s s = [].
Proof. unfold events_since. apply drop_all. Qed.

Lemma ensure_client_outcome (env : Env) (config : ServerConfig) (serverName : string)
  (s s' : State) (res : completion unit) :
  ensure_client env config serverName s = (res, s') ->
  ensure_outcome env config serverName s res s'.
Proof.
  unfold ensure_client, bind, get_client.
  destruct (mcpClients s !! serverName) as [c|] eqn:Hc.
  - intros [= <- <-]. by eapply ensure_hit.
  - unfold new_URL.
    destruct (URL_valid env (url config)) eqn:Hurl; simpl.
    + unfold client_connect.
      destruct (connect env (history s) (new_Client env) (url config)) as [[]|e] eqn:Hconn;
        simpl; intros [= <- <-].
      * by apply ensure_connected.
      * by apply ensure_refused.
    + intros [= <- <-]. by apply ensure_invalid_url.
Qed.

Lemma extend_extend (s : State) (evs evs' : list event) :
  extend (extend s evs) evs' = extend s (evs ++ evs').
Proof. unfold extend; simpl. by rewrite <- app_assoc. Qed.

Lemma record_event_extend (ev : event) (s : State) : record_event ev s = extend s [ev].
Proof. reflexivity. Qed.

Ltac normalize_history :=
  rewrite ?record_event_extend, ?extend_extend; simpl;
  rewrite <- ?app_assoc; simpl.

Lemma call_tool_and_format_outcome (env : Env) (callId serverName toolName : string)
  (callArgs : value) (s s' : State) (res : completion (list FunctionCallOutput)) :
  call_tool_and_format env callId serverName toolName callArgs s = (res, s') ->
  call_outcome env callId serverName toolName callArgs s res s'.
Proof.
  unfold call_tool_and_format, bind, try_catch, now, get_client, client_callTool, lift, ret.
  simpl.
  destruct (mcpClients s !! serverName) as [c|] eqn:Hc; simpl.
  - destruct (callTool env (history s ++ [Now (Date_now env (history s))]) c toolName callArgs)
      as [response|e] eqn:Hr; simpl.
    + destruct (outputText response) as [text|e] eqn:Ht; simpl.
      * intros [= <- <-]. normalize_history.
        eapply call_ok; eauto; by rewrite Hr.
      * destruct (error_message e) as [msg|e'] eqn:Hm; simpl;
          intros [= <- <-]; normalize_history.
        -- eapply call_caught; eauto; by rewrite Hr.
        -- eapply call_escaped; eauto; by rewrite Hr.
    + destruct (error_message e) as [msg|e'] eqn:Hm; simpl;
        intros [= <- <-]; normalize_history.
      * eapply call_caught; eauto; by rewrite Hr.
      * eapply call_escaped; eauto; by rewrite Hr.
  - intros [= <- <-]. normalize_history. by eapply call_no_client.
Qed.

(** ** Routing *)

Lemma handleMcpFunctionCall_outcome (env : Env) (servers : Registry) (serverName : string)
  (rawArguments : option string) (callId : string) (s s' : State)
  (res : completion (list FunctionCallOutput)) :
  handleMcpFunctionCall env servers serverName rawArguments callId s = (res, s') ->
  handle_outcome env servers serverName rawArguments callId s res s'.
Proof.
  unfold handleMcpFunctionCall.
  destruct (registry_get servers serverName) as [config|] eqn:Hreg.
  2: { intros [= <- <-]. by apply handled_unknown_server. }
  destruct (JSON_parse (default "{}" rawArguments)) as [parsed|] eqn:Hparse.
  2: { intros [= <- <-]. by eapply handled_unparseable. }
  unfold bind at 1, lift.
  destruct (destructure parsed) as [[[toolName args] other]|e] eqn:Hd.
  2: { intros [= <- <-]. by eapply handled_not_destructurable. }
  assert (Hinv : forall name, toolName = VStr name ->
            parsed_invocation rawArguments = Some (name, nullish_coalesce args other)).
  { intros name ->. unfold parsed_invocation. by rewrite Hparse, Hd. }
  destruct toolName as [| |b|q|name|elems|props];
    try (intros [= <- <-]; by eapply handled_no_tool_name).
  specialize (Hinv name eq_refl).
  unfold bind.
  destruct (ensure_client env config serverName s) as [[[]|e] s1] eqn:He;
    apply ensure_client_outcome in He.
  - intros Hcall. apply call_tool_and_format_outcome in Hcall.
    by eapply handled_call.
  - intros [= <- <-]. by eapply handled_no_connection.
Qed.

Lemma events_since_app (s s' : State) (evs : list event) :
  history s' = history s ++ evs -> events_since s s' = evs.
Proof. unfold events_since. intros ->. apply drop_app_length. Qed.

(** Every case of a run, with the events of the run computed. *)
Ltac invert_run H :=
  apply handleMcpFunctionCall_outcome in H;
  inversion H; subst; clear H;
  repeat match goal with
         | E : ensure_outcome _ _ _ _ _ _ |- _ => inversion E; subst; clear E
         | C : call_outcome _ _ _ _ _ _ _ _ |- _ => inversion C; subst; clear C
         end.

Ltac compute_events :=
  repeat match goal with
         | H : context [events_since ?s ?s] |- _ => rewrite (events_since_refl s) in H
         | |- context [events_since ?s ?s] => rewrite (events_since_refl s)
         | H : context [events_since ?s ?s'] |- _ =>
             erewrite (events_since_app s s') in H
               by (simpl; rewrite <- ?app_assoc; reflexivity)
         | |- context [events_since ?s ?s'] =>
             erewrite (events_since_app s s')
               by (simpl; rewrite <- ?app_assoc; reflexivity)
         end;
  simpl in *; rewrite <- ?app_assoc in *; simpl in *.

(** ** Exactly one output record *)

(** C4. Whatever the registry, the server name, the raw argument string
    (absent or not) and the call id, a call that returns returns a sequence
    of exactly one [function_call_output] record, and that record carries
    the given call id. *)
Theorem returns_exactly_one_record (env : Env) (servers : Registry) (serverName : string)
  (rawArguments : option string) (callId : string) (s s' : State)
  (res : list FunctionCallOutput) :
  handleMcpFunctionCall env servers serverName rawArguments callId s = (Normal res, s') ->
  exists out : string,
    res = [ {| type := "function_call_output"; call_id := callId; output := out |} ].
Proof.
  intros H. invert_run H; unfold formatRaw, formatOutput; eauto.
Qed.

Lemma returns_exactly_one_record_witness :
  exists out : string,
    [ {| type := "function_call_output"; call_id := "call_1";
         output := dq "{'output':'hi','metadata':{'exit_code':0,'duration_seconds':0.2}}" |} ]
    = [ {| type := "function_call_output"; call_id := "call_1"; output := out |} ].
Proof.
  pose (run := handleMcpFunctionCall
                 (demo_env (Normal (VObj [("content", VArr [VObj [("text", VStr "hi")]])])))
                 demo_servers "a" (Some (dq "{'name':'echo','args':{'x':1}}")) "call_1"
                 initial_state).
  apply (returns_exactly_one_record
           (demo_env (Normal (VObj [("content", VArr [VObj [("text", VStr "hi")]])])))
           demo_servers "a" (Some (dq "{'name':'echo','args':{'x':1}}")) "call_1"
           initial_state (snd run)).
  vm_compute. reflexivity.
Defined.

(** ** Schema generator *)

Lemma tool_definition_descriptor (serverName : string) :
  descriptor_for serverName (tool_definition serverName).
Proof.
  unfold descriptor_for, tool_definition.
  repeat split; try reflexivity.
  do 4 eexists. repeat split; reflexivity.
Qed.

(** C6. [getMcpToolDefinitions] of an absent registry is the empty
    sequence; of a registry it is one descriptor per registered server, in
    the iteration order of the registry, each of type [function], named by
    the server's key verbatim, not strict, with a parameter schema requiring
    exactly [name] (string) and [args] (object) and no additional
    properties. *)
Theorem getMcpToolDefinitions_descriptors :
  getMcpToolDefinitions None = [] /\
  forall servers : Registry,
    Forall2 (fun (entry : string * ServerConfig) (d : value) => descriptor_for (fst entry) d)
            servers (getMcpToolDefinitions (Some servers)).
Proof.
  split; [reflexivity|].
  induction servers as [|[serverName config] servers IH]; simpl.
  - constructor.
  - constructor; [apply tool_definition_descriptor | exact IH].
Qed.

(** C10. The descriptors depend on the keys of the registry and their
    order only: two registries with the same keys in the same iteration
    order, whatever their [url] values, give the same descriptor
    sequence. *)
Theorem getMcpToolDefinitions_ignores_urls (servers1 servers2 : Registry) :
  map fst servers1 = map fst servers2 ->
  getMcpToolDefinitions (Some servers1) = getMcpToolDefinitions (Some servers2).
Proof.
  revert servers2.
  induction servers1 as [|[k1 c1] servers1 IH]; intros [|[k2 c2] servers2]; simpl;
    try discriminate; [reflexivity|].
  intros [= -> Hrest]. f_equal. exact (IH servers2 Hrest).
Qed.

Lemma getMcpToolDefinitions_ignores_urls_witness :
  getMcpToolDefinitions (Some demo_servers)
  = getMcpToolDefinitions
      (Some [("a", {| url := "https://example.org/mcp" |}); ("b", {| url := "" |})]).
Proof.
  apply (getMcpToolDefinitions_ignores_urls demo_servers
           [("a", {| url := "https://example.org/mcp" |}); ("b", {| url := "" |})]).
  reflexivity.
Defined.

(** ** Unroutable calls *)

Lemma parse_members_object (fuel : nat) (pv : parser) (acc : list (string * value))
  (l r : list ascii) (v : value) :
  parse_members fuel pv acc l = Some (v, r) -> exists props, v = VObj props.
Proof.
  revert acc l. induction fuel as [|fuel IH]; intros acc l; simpl; [discriminate|].
  repeat case_match; try discriminate; eauto.
  intros [= <- <-]. eauto.
Qed.

Lemma parse_elements_array (fuel : nat) (pv : parser) (acc : list value)
  (l r : list ascii) (v : value) :
  parse_elements fuel pv acc l = Some (v, r) -> exists elems, v = VArr elems.
Proof.
  revert acc l. induction fuel as [|fuel IH]; intros acc l; simpl; [discriminate|].
  repeat case_match; try discriminate; eauto.
  intros [= <- <-]. eauto.
Qed.

Lemma parse_value_defined (fuel : nat) (l r : list ascii) (v : value) :
  parse_value fuel l = Some (v, r) -> v <> VUndefined.
Proof.
  destruct fuel as [|fuel]; simpl; [discriminate|].
  unfold literal.
  repeat case_match; try discriminate;
    try (intros [= <- <-]; discriminate).
  - intros Hm. apply parse_members_object in Hm as [props ->]. discriminate.
  - intros He. apply parse_elements_array in He as [elems ->]. discriminate.
Qed.

(** [JSON.parse] never gives [undefined]. *)
Lemma JSON_parse_defined (text : string) : JSON_parse text <> Some VUndefined.
Proof.
  unfold JSON_parse.
  destruct (parse_value _ _) as [[v r]|] eqn:H; [|discriminate].
  apply parse_value_defined in H.
  destruct (skip_ws r); [|discriminate]. congruence.
Qed.

Lemma destructure_name (parsed toolName args other : value) :
  destructure parsed = Normal (toolName, args, other) ->
  Get parsed "name" = Normal toolName.
Proof.
  destruct parsed; simpl; try discriminate; by intros [= <- <- <-].
Qed.

(** A call for an unknown server, with an unparseable argument string, or
    with a payload other than [null] whose [name] is not a string, returns
    the raw argument string and touches nothing. *)
Lemma unroutable_passthrough (env : Env) (servers : Registry) (serverName : string)
  (rawArguments : option string) (callId : string) (s : State) :
  registry_get servers serverName = None \/
  JSON_parse (default "{}" rawArguments) = None \/
  (exists parsed toolName,
     JSON_parse (default "{}" rawArguments) = Some parsed /\
     parsed <> VNull /\
     Get parsed "name" = Normal toolName /\ is_string toolName = false) ->
  handleMcpFunctionCall env servers serverName rawArguments callId s
  = (Normal [ {| type := "function_call_output"; call_id := callId;
                 output := default "{}" rawArguments |} ], s).
Proof.
  intros Hcase.
  destruct (handleMcpFunctionCall env servers serverName rawArguments callId s)
    as [res s'] eqn:Hrun.
  apply handleMcpFunctionCall_outcome in Hrun.
  assert (Hinv : forall toolName callArgs,
            parsed_invocation rawArguments = Some (toolName, callArgs) ->
            registry_get servers serverName <> None ->
            False).
  { intros toolName callArgs Hp Hknown. unfold parsed_invocation in Hp.
    destruct Hcase as [Hreg | [Hparse | (parsed & name & Hparse & Hnull & Hname & Hstr)]];
      [done | by rewrite Hparse in Hp |].
    rewrite Hparse in Hp.
    destruct (destructure parsed) as [[[t a] o]|] eqn:Hd; [|done].
    apply destructure_name in Hd. rewrite Hname in Hd. injection Hd as <-.
    by destruct name. }
  inversion Hrun; subst; try reflexivity.
  - destruct Hcase as [Hreg | [Hparse | (parsed' & name & Hparse & Hnull & Hname & Hstr)]];
      [congruence | congruence |].
    assert (parsed' = parsed) as -> by congruence.
    destruct parsed; simpl in *; try discriminate; congruence.
  - exfalso. eapply Hinv; eauto. congruence.
  - exfalso. eapply Hinv; eauto. congruence.
Qed.

(** C1. The payload [null] is not passed through: for a known server the
    argument string [null] is parseable, the parsed payload has no string
    [name], and yet the call does not return the raw string but throws the
    [TypeError] of destructuring [null], which happens before the type of
    the tool name is tested.  Every other unroutable call is passed
    through ([unroutable_passthrough]). *)
Theorem null_payload_throws (env : Env) (servers : Registry) (serverName : string)
  (config : ServerConfig) (callId : string) (s : State) :
  registry_get servers serverName = Some config ->
  JSON_parse "null" = Some VNull /\
  parsed_invocation (Some "null") = None /\
  handleMcpFunctionCall env servers serverName (Some "null") callId s
  = (Abrupt (TypeError "Cannot destructure property 'name' of 'parsed' as it is null."), s).
Proof.
  intros Hreg. repeat split; try reflexivity.
  unfold handleMcpFunctionCall. rewrite Hreg. reflexivity.
Qed.

Lemma null_payload_throws_witness :
  JSON_parse "null" = Some VNull /\
  parsed_invocation (Some "null") = None /\
  handleMcpFunctionCall (demo_env (Normal VNull)) demo_servers "a" (Some "null") "call_1"
    initial_state
  = (Abrupt (TypeError "Cannot destructure property 'name' of 'parsed' as it is null."),
     initial_state).
Proof.
  apply (null_payload_throws (demo_env (Normal VNull)) demo_servers "a"
           {| url := "http://localhost:3001/sse" |} "call_1" initial_state).
  reflexivity.
Defined.

(** ** Remote failure *)

Ltac event_cases H :=
  simpl in H;
  repeat match type of H with
         | _ \/ _ => destruct H as [H|H]
         | False => destruct H
         end;
  try discriminate H.

(** A tool is called only for a known server and a well-formed payload,
    with the name and the arguments of the payload. *)
Lemma tool_called_only_when_routed (env : Env) (servers : Registry) (serverName : string)
  (rawArguments : option string) (callId : string) (s s' : State)
  (res : completion (list FunctionCallOutput))
  (c : Client) (toolName : string) (callArgs : value) (r : completion value) :
  handleMcpFunctionCall env servers serverName rawArguments callId s = (res, s') ->
  In (CallTool c toolName callArgs r) (events_since s s') ->
  registry_get servers serverName <> None /\
  parsed_invocation rawArguments = Some (toolName, callArgs).
Proof.
  intros Hrun Hin.
  invert_run Hrun; compute_events; event_cases Hin;
    injection Hin as <- <- <- <-; split; congruence.
Qed.

(** X19. What the [catch] clause makes of a rejected tool call: if the
    call reaches the remote tool and [callTool] throws or rejects with [e],
    then, when [e] is an [Error], or a value whose conversion by [String]
    succeeds, the call returns one record whose output is the JSON text of
    [{output, metadata}] with [exit_code] 1 and [output] the text
    [MCP error: ] followed by the message of the error, respectively by the
    string form of the value; when the conversion itself throws, the call
    ends with that exception, the conversion being made outside any
    [try]. *)
Theorem remote_failure_record (env : Env) (servers : Registry) (serverName : string)
  (rawArguments : option string) (callId : string) (s s' : State)
  (res : completion (list FunctionCallOutput))
  (c : Client) (toolName : string) (callArgs : value) (e : thrown) :
  handleMcpFunctionCall env servers serverName rawArguments callId s = (res, s') ->
  In (CallTool c toolName callArgs (Abrupt e)) (events_since s s') ->
  (forall name message : string,
     e = ErrorObj name message ->
     exists t0 t1 : Z,
       res = Normal [ {| type := "function_call_output"; call_id := callId;
                         output := SerializeJSON
                                     (envelope (VStr ("MCP error: " +:+ message)) 1
                                        (duration t0 t1)) |} ]) /\
  (forall (v : value) (str : string),
     e = ThrownValue v -> ToString v = Normal str ->
     exists t0 t1 : Z,
       res = Normal [ {| type := "function_call_output"; call_id := callId;
                         output := SerializeJSON
                                     (envelope (VStr ("MCP error: " +:+ str)) 1
                                        (duration t0 t1)) |} ]) /\
  (forall (v : value) (e' : thrown),
     e = ThrownValue v -> ToString v = Abrupt e' -> res = Abrupt e').
Proof.
  intros Hrun Hin.
  assert (Hmsg : (forall msg, error_message e = Normal msg ->
                    exists t0 t1 : Z,
                      res = Normal [formatOutput callId (VStr ("MCP error: " +:+ msg)) 1
                                      (duration t0 t1)]) /\
                 (forall e', error_message e = Abrupt e' -> res = Abrupt e')).
  { invert_run Hrun; compute_events; event_cases Hin;
      injection Hin as <- <- <- Hr;
      match goal with
      | Ht : try_result _ = _ |- _ => rewrite Hr in Ht; simpl in Ht
      end;
      try discriminate;
      match goal with
      | Ht : Abrupt _ = Abrupt _ |- _ => injection Ht as <-
      end;
      split; intros; try congruence;
      match goal with
      | Hm : error_message e = Normal ?m, Hm' : error_message e = Normal ?m' |- _ =>
          assert (m' = m) as -> by congruence
      end; eauto. }
  destruct Hmsg as [Hok Hesc].
  repeat split.
  - intros name message ->. apply (Hok message). reflexivity.
  - intros v str -> Hstr. apply (Hok str). exact Hstr.
  - intros v e' -> Hstr. apply Hesc. exact Hstr.
Qed.

Lemma remote_failure_record_witness :
  exists t0 t1 : Z,
    fst (handleMcpFunctionCall (demo_env (Abrupt (ErrorObj "Error" "boom"))) demo_servers "a"
           (Some (dq "{'name':'echo','args':{'x':1}}")) "call_1" initial_state)
    = Normal [ {| type := "function_call_output"; call_id := "call_1";
                  output := SerializeJSON
                              (envelope (VStr "MCP error: boom") 1 (duration t0 t1)) |} ].
Proof.
  pose (env := demo_env (Abrupt (ErrorObj "Error" "boom"))).
  pose (run := handleMcpFunctionCall env demo_servers "a"
                 (Some (dq "{'name':'echo','args':{'x':1}}")) "call_1" initial_state).
  refine (proj1 (remote_failure_record env demo_servers "a"
                   (Some (dq "{'name':'echo','args':{'x':1}}")) "call_1"
                   initial_state (snd run) (fst run)
                   (connected (new_Client env) "http://localhost:3001/sse")
                   "echo" (VObj [("x", VNum 1)]) (ErrorObj "Error" "boom") _ _)
            "Error" "boom" eq_refl).
  - vm_compute. reflexivity.
  - vm_compute. right; right; left; reflexivity.
Defined.

(** C2. The [catch] clause does not turn every rejection into a record:
    for a known server and a well-formed payload, when [callTool] rejects
    with an object that has an own, non-callable [toString], the conversion
    [String(err)] of line 97 throws inside the [catch] clause, and that
    [TypeError] leaves the function instead of an [exit_code] 1 record. *)
Lemma remote_failure_can_escape :
  let e := ThrownValue (VObj [("toString", VNum 1)]) in
  let env := demo_env (Abrupt e) in
  let run := handleMcpFunctionCall env demo_servers "a" (Some (dq "{'name':'t'}"))
               "call_1" initial_state in
  registry_get demo_servers "a" <> None /\
  parsed_invocation (Some (dq "{'name':'t'}")) = Some ("t", VObj []) /\
  In (CallTool (connected (new_Client env) "http://localhost:3001/sse") "t" (VObj [])
        (Abrupt e))
     (events_since initial_state (snd run)) /\
  fst run = Abrupt (TypeError "Cannot convert object to primitive value").
Proof.
  vm_compute. repeat split; try discriminate.
  right; right; left; reflexivity.
Qed.

(** ** Remote success *)

Lemma map_text_Forall2 (content texts : list value) :
  Forall2 (fun x t => Get x "text" = Normal t) content texts ->
  map_text content = Normal texts.
Proof.
  induction 1 as [|x t content texts Hx _ IH]; simpl; [reflexivity|].
  by rewrite Hx, IH.
Qed.

Lemma Array_join_strings (strs : list string) (sep : string) :
  Array_join (map VStr strs) sep = Normal (String.concat sep strs).
Proof.
  unfold Array_join.
  induction strs as [|x strs IH]; simpl; [reflexivity|].
  destruct strs as [|y strs]; [reflexivity|].
  simpl in IH |- *. by rewrite IH.
Qed.

Lemma Forall2_text_strings (content : list value) (strs : list string) :
  Forall2 (fun x t => Get x "text" = Normal (VStr t)) content strs ->
  Forall2 (fun x t => Get x "text" = Normal t) content (map VStr strs).
Proof. induction 1; simpl; constructor; auto. Qed.

Lemma outputText_joined (response : value) (content texts : list value) (joined : string) :
  Get response "content" = Normal (VArr content) ->
  Forall2 (fun x t => Get x "text" = Normal t) content texts ->
  Array_join texts LF = Normal joined ->
  outputText response = Normal (VStr joined).
Proof.
  intros Hc Ht Hj. unfold outputText.
  by rewrite Hc, (map_text_Forall2 _ _ Ht), Hj.
Qed.

Lemma outputText_serialized (response content : value) :
  Get response "content" = Normal content ->
  Array_isArray content = false ->
  outputText response = Normal (VStr (SerializeJSON response)).
Proof.
  intros Hc Ha. unfold outputText. rewrite Hc.
  assert (JSON_stringify response = Some (SerializeJSON response)) as ->
    by (destruct response; simpl in Hc; try discriminate; reflexivity).
  by destruct content.
Qed.

(** A conversion to string throws nothing but the [TypeError] of
    [OrdinaryToPrimitive]. *)
Lemma ToString_abrupt :
  forall (v : value) (e : thrown),
    ToString v = Abrupt e -> e = TypeError "Cannot convert object to primitive value".
Proof.
  fix IH 1. intros [| |b|q|str|elems|props] e; simpl; try discriminate.
  - induction elems as [|x rest IHrest]; simpl; [discriminate|].
    destruct (is_nullish x).
    + destruct rest as [|y rest']; [discriminate|].
      destruct (join_with ToString "," (y :: rest')) eqn:Hj; [discriminate|].
      intros [= <-]. by apply IHrest.
    + destruct (ToString x) as [sx|ex] eqn:Hx.
      * destruct rest as [|y rest']; [discriminate|].
        destruct (join_with ToString "," (y :: rest')) eqn:Hj; [discriminate|].
        intros [= <-]. by apply IHrest.
      * intros [= <-]. by apply (IH x).
  - destruct (has_prop "toString" props); [|discriminate]. by intros [= <-].
Qed.

Lemma Array_join_abrupt (elems : list value) (sep : string) (e : thrown) :
  Array_join elems sep = Abrupt e ->
  e = TypeError "Cannot convert object to primitive value".
Proof.
  unfold Array_join.
  induction elems as [|x rest IH]; simpl; [discriminate|].
  destruct (is_nullish x).
  - destruct rest as [|y rest']; [discriminate|].
    destruct (join_with ToString sep (y :: rest')) eqn:Hj; [discriminate|].
    intros [= <-]. by apply IH.
  - destruct (ToString x) as [sx|ex] eqn:Hx.
    + destruct rest as [|y rest']; [discriminate|].
      destruct (join_with ToString sep (y :: rest')) eqn:Hj; [discriminate|].
      intros [= <-]. by apply IH.
    + intros [= <-]. by apply ToString_abrupt in Hx.
Qed.

Lemma Get_abrupt (v : value) (k : string) (e : thrown) :
  Get v k = Abrupt e -> exists message, e = TypeError message.
Proof. destruct v; simpl; try discriminate; repeat case_match; try discriminate;
  intros [= <-]; eauto. Qed.

Lemma map_text_abrupt (content : list value) (e : thrown) :
  map_text content = Abrupt e -> exists message, e = TypeError message.
Proof.
  induction content as [|c rest IH]; simpl; [discriminate|].
  destruct (Get c "text") as [t|e0] eqn:Hg.
  - destruct (map_text rest); [discriminate|]. intros [= <-]. by apply IH.
  - intros [= <-]. by eapply Get_abrupt.
Qed.

(** Whatever the formatting of a response throws is a [TypeError], which
    has a message. *)
Lemma outputText_abrupt (response : value) (e : thrown) :
  outputText response = Abrupt e -> exists message, e = TypeError message.
Proof.
  unfold outputText.
  destruct (Get response "content") as [content|e0] eqn:Hc.
  - destruct content; try discriminate.
    destruct (map_text elems) as [texts|e1] eqn:Hm.
    + destruct (Array_join texts LF) as [str|e2] eqn:Hj; [discriminate|].
      intros [= <-]. apply Array_join_abrupt in Hj. eauto.
    + intros [= <-]. by eapply map_text_abrupt.
  - intros [= <-]. by eapply Get_abrupt.
Qed.

Lemma map_text_readable (content texts : list value) :
  map_text content = Normal texts ->
  Forall2 (fun x t => Get x "text" = Normal t) content texts.
Proof.
  revert texts. induction content as [|x content IH]; simpl; intros texts.
  - intros [= <-]. constructor.
  - destruct (Get x "text") as [t|e] eqn:Hx; [|discriminate].
    destruct (map_text content) as [ts|e]; [|discriminate].
    intros [= <-]. constructor; auto.
Qed.

(** What a run that reached the remote tool and got a response returns. *)
Lemma response_record (env : Env) (servers : Registry) (serverName : string)
  (rawArguments : option string) (callId : string) (s s' : State)
  (res : completion (list FunctionCallOutput))
  (c : Client) (toolName : string) (callArgs response : value) :
  handleMcpFunctionCall env servers serverName rawArguments callId s = (res, s') ->
  In (CallTool c toolName callArgs (Normal response)) (events_since s s') ->
  (forall text, outputText response = Normal text ->
     exists t0 t1 : Z, res = Normal [formatOutput callId text 0 (duration t0 t1)]) /\
  (forall e msg, outputText response = Abrupt e -> error_message e = Normal msg ->
     exists t0 t1 : Z,
       res = Normal [formatOutput callId (VStr ("MCP error: " +:+ msg)) 1 (duration t0 t1)]).
Proof.
  intros Hrun Hin.
  invert_run Hrun; compute_events; event_cases Hin;
    injection Hin as <- <- <- Hr;
    match goal with
    | Ht : try_result _ = _ |- _ => rewrite Hr in Ht; simpl in Ht
    end;
    split; intros; try congruence;
    repeat match goal with
           | Ha : ?x = Normal ?a, Hb : ?x = Normal ?b |- _ =>
               assert (b = a) as -> by congruence; clear Hb
           | Ha : ?x = Abrupt ?a, Hb : ?x = Abrupt ?b |- _ =>
               assert (b = a) as -> by congruence; clear Hb
           end; eauto.
Qed.

(** C3, amended. If the call reaches the remote tool, as it does for a
    known server and a well-formed payload once the client is there, and
    [callTool] resolves with a response, then exactly one of these holds.
    The [content] of the response is an array, the [text] of each element
    can be read and [join] can convert every text: the call returns one
    record whose output is the JSON text of [{output, metadata}] with
    [exit_code] 0 and [output] the texts joined with newlines (for string
    texts, which [join] always converts, the strings with a newline between
    them).  The response is neither [null] nor [undefined] and its
    [content] is not an array: [exit_code] is 0 and [output] is the JSON
    serialization of the whole response.  Otherwise reading [content]
    throws, the response being [null] or [undefined], or reading a [text]
    throws, or [join] cannot convert a text: the [TypeError] is caught and
    the call returns the [exit_code] 1 record with [MCP error: ] and the
    message of the [TypeError]. *)
Theorem remote_success_record (env : Env) (servers : Registry) (serverName : string)
  (rawArguments : option string) (callId : string) (s s' : State)
  (res : completion (list FunctionCallOutput))
  (c : Client) (toolName : string) (callArgs response : value) :
  handleMcpFunctionCall env servers serverName rawArguments callId s = (res, s') ->
  In (CallTool c toolName callArgs (Normal response)) (events_since s s') ->
  (forall (content texts : list value) (joined : string),
     Get response "content" = Normal (VArr content) ->
     Forall2 (fun x t => Get x "text" = Normal t) content texts ->
     Array_join texts LF = Normal joined ->
     exists t0 t1 : Z,
       res = Normal [ {| type := "function_call_output"; call_id := callId;
                         output := SerializeJSON
                                     (envelope (VStr joined) 0 (duration t0 t1)) |} ]) /\
  (forall (content : list value) (strs : list string),
     Get response "content" = Normal (VArr content) ->
     Forall2 (fun x t => Get x "text" = Normal (VStr t)) content strs ->
     exists t0 t1 : Z,
       res = Normal [ {| type := "function_call_output"; call_id := callId;
                         output := SerializeJSON
                                     (envelope (VStr (String.concat LF strs)) 0
                                        (duration t0 t1)) |} ]) /\
  (forall content : value,
     Get response "content" = Normal content ->
     Array_isArray content = false ->
     exists t0 t1 : Z,
       res = Normal [ {| type := "function_call_output"; call_id := callId;
                         output := SerializeJSON
                                     (envelope (VStr (SerializeJSON response)) 0
                                        (duration t0 t1)) |} ]) /\
  (forall name message : string,
     Get response "content" = Abrupt (ErrorObj name message) ->
     exists t0 t1 : Z,
       res = Normal [ {| type := "function_call_output"; call_id := callId;
                         output := SerializeJSON
                                     (envelope (VStr ("MCP error: " +:+ message)) 1
                                        (duration t0 t1)) |} ]) /\
  (forall (content : list value) (name message : string),
     Get response "content" = Normal (VArr content) ->
     map_text content = Abrupt (ErrorObj name message) ->
     exists t0 t1 : Z,
       res = Normal [ {| type := "function_call_output"; call_id := callId;
                         output := SerializeJSON
                                     (envelope (VStr ("MCP error: " +:+ message)) 1
                                        (duration t0 t1)) |} ]) /\
  (forall (content texts : list value) (name message : string),
     Get response "content" = Normal (VArr content) ->
     Forall2 (fun x t => Get x "text" = Normal t) content texts ->
     Array_join texts LF = Abrupt (ErrorObj name message) ->
     exists t0 t1 : Z,
       res = Normal [ {| type := "function_call_output"; call_id := callId;
                         output := SerializeJSON
                                     (envelope (VStr ("MCP error: " +:+ message)) 1
                                        (duration t0 t1)) |} ]) /\
  ((exists content, Get response "content" = Normal content /\
                    Array_isArray content = false) \/
   (exists e, Get response "content" = Abrupt e) \/
   (exists content,
      Get response "content" = Normal (VArr content) /\
      ((exists name message, map_text content = Abrupt (ErrorObj name message)) \/
       exists texts,
         Forall2 (fun x t => Get x "text" = Normal t) content texts /\
         ((exists joined, Array_join texts LF = Normal joined) \/
          exists name message, Array_join texts LF = Abrupt (ErrorObj name message))))).
Proof.
  intros Hrun Hin.
  destruct (response_record _ _ _ _ _ _ _ _ _ _ _ _ Hrun Hin) as [Hok Hfail].
  split; [|split; [|split; [|split; [|split; [|split]]]]].
  - intros content texts joined Hc Ht Hj.
    apply Hok. by eapply outputText_joined.
  - intros content strs Hc Ht.
    apply Hok. eapply outputText_joined; eauto using Forall2_text_strings.
    apply Array_join_strings.
  - intros content Hc Ha.
    apply Hok. by eapply outputText_serialized.
  - intros name message Hc.
    apply (Hfail (ErrorObj name message) message); [|reflexivity].
    unfold outputText. by rewrite Hc.
  - intros content name message Hc Hm.
    apply (Hfail (ErrorObj name message) message); [|reflexivity].
    unfold outputText. by rewrite Hc, Hm.
  - intros content texts name message Hc Ht Hj.
    apply (Hfail (ErrorObj name message) message); [|reflexivity].
    unfold outputText. by rewrite Hc, (map_text_Forall2 _ _ Ht), Hj.
  - destruct (Get response "content") as [content|e] eqn:Hc; [|eauto].
    destruct (Array_isArray content) eqn:Ha; [|eauto].
    destruct content as [| | | | |content|]; try discriminate.
    right; right. exists content. split; [reflexivity|].
    destruct (map_text content) as [texts|e] eqn:Hm.
    + right. exists texts. split; [by apply map_text_readable|].
      destruct (Array_join texts LF) as [joined|e] eqn:Hj; [eauto|].
      right. apply Array_join_abrupt in Hj as ->. unfold TypeError. eauto.
    + left. apply map_text_abrupt in Hm as [message ->]. unfold TypeError. eauto.
Qed.

Lemma remote_success_record_witness :
  exists t0 t1 : Z,
    fst (handleMcpFunctionCall
           (demo_env (Normal (VObj [("content", VArr [VObj [("text", VStr "hi")]])])))
           demo_servers "a" (Some (dq "{'name':'echo','args':{'x':1}}")) "call_1"
           initial_state)
    = Normal [ {| type := "function_call_output"; call_id := "call_1";
                  output := SerializeJSON (envelope (VStr "hi") 0 (duration t0 t1)) |} ].
Proof.
  pose (response := VObj [("content", VArr [VObj [("text", VStr "hi")]])]).
  pose (env := demo_env (Normal response)).
  pose (run := handleMcpFunctionCall env demo_servers "a"
                 (Some (dq "{'name':'echo','args':{'x':1}}")) "call_1" initial_state).
  refine (proj1 (proj2 (remote_success_record env demo_servers "a"
                   (Some (dq "{'name':'echo','args':{'x':1}}")) "call_1"
                   initial_state (snd run) (fst run)
                   (connected (new_Client env) "http://localhost:3001/sse")
                   "echo" (VObj [("x", VNum 1)]) response _ _))
            [VObj [("text", VStr "hi")]] ["hi"] eq_refl _).
  - vm_compute. reflexivity.
  - vm_compute. right; right; left; reflexivity.
  - repeat constructor.
Defined.

(** C3 as stated fails: when [callTool] resolves with [null], whose
    [content] is not an array and whose JSON serialization is the text
    [null], the record is not the [exit_code] 0 record with that text:
    reading [content] of [null] throws inside the [try] block, and the
    record is the [exit_code] 1 record of the [catch] clause. *)
Lemma null_response_is_failure :
  let env := demo_env (Normal VNull) in
  let run := handleMcpFunctionCall env demo_servers "a" (Some (dq "{'name':'t'}"))
               "call_1" initial_state in
  In (CallTool (connected (new_Client env) "http://localhost:3001/sse") "t" (VObj [])
        (Normal VNull))
     (events_since initial_state (snd run)) /\
  JSON_stringify VNull = Some "null" /\
  fst run
  = Normal [ {| type := "function_call_output"; call_id := "call_1";
                output := SerializeJSON
                            (envelope
                               (VStr "MCP error: Cannot read properties of null (reading 'content')")
                               1 (2 # 10)) |} ] /\
  fst run
  <> Normal [ {| type := "function_call_output"; call_id := "call_1";
                 output := SerializeJSON (envelope (VStr "null") 0 (2 # 10)) |} ].
Proof.
  vm_compute. repeat split; try discriminate.
  right; right; left; reflexivity.
Qed.

(** ** The arguments of the tool call *)

Lemma parsed_invocation_object (rawArguments : option string)
  (props : list (string * value)) (toolName : string) :
  JSON_parse (default "{}" rawArguments) = Some (VObj props) ->
  lookup_prop "name" props = Some (VStr toolName) ->
  parsed_invocation rawArguments = Some (toolName, callArgs_if_not_null props).
Proof.
  intros Hparse Hname. unfold parsed_invocation, callArgs_if_not_null.
  rewrite Hparse. simpl. rewrite Hname. simpl.
  unfold nullish_coalesce, rest_fields.
  by destruct (lookup_prop "args" props) as [args|].
Qed.

(** A call for a known server with a well-formed payload resolves the
    client and, if that succeeds, calls the tool. *)
Lemma routed_outcome (env : Env) (servers : Registry) (serverName : string)
  (rawArguments : option string) (callId : string) (s s' : State)
  (res : completion (list FunctionCallOutput))
  (config : ServerConfig) (toolName : string) (callArgs : value) :
  registry_get servers serverName = Some config ->
  parsed_invocation rawArguments = Some (toolName, callArgs) ->
  handleMcpFunctionCall env servers serverName rawArguments callId s = (res, s') ->
  (exists e, ensure_outcome env config serverName s (Abrupt e) s' /\ res = Abrupt e) \/
  (exists s1, ensure_outcome env config serverName s (Normal tt) s1 /\
              call_outcome env callId serverName toolName callArgs s1 res s').
Proof.
  intros Hreg Hinv Hrun.
  apply handleMcpFunctionCall_outcome in Hrun.
  unfold parsed_invocation in Hinv.
  inversion Hrun; subst; try congruence.
  - by rewrite H0 in Hinv.
  - rewrite H0, H1 in Hinv. by destruct toolName0.
  - by rewrite H0, H1 in Hinv.
  - left. exists e. split; [congruence | reflexivity].
  - right. exists s1.
    assert (config0 = config) as -> by congruence.
    assert (toolName0 = toolName /\ callArgs0 = callArgs) as [-> ->]
      by (unfold parsed_invocation in *; split; congruence).
    by split.
Qed.

(** C7, amended. For every payload that parses to an object with a string
    [name], every tool invocation of the call carries that name and, as
    arguments, the [args] field of the payload if it is present and not
    [null], and otherwise the object of the remaining top-level fields,
    [name] and [args] removed; for a server whose name is not that of a
    member of [Object.prototype] the invocation takes place as soon as the
    client of the server is there; in particular the payload with [name]
    [t] and [foo] [bar] is invoked with the arguments [{foo: bar}]. *)
Theorem call_arguments (env : Env) (servers : Registry) (serverName : string)
  (rawArguments : option string) (callId : string) (s s' : State)
  (res : completion (list FunctionCallOutput))
  (props : list (string * value)) (toolName : string) :
  handleMcpFunctionCall env servers serverName rawArguments callId s = (res, s') ->
  JSON_parse (default "{}" rawArguments) = Some (VObj props) ->
  lookup_prop "name" props = Some (VStr toolName) ->
  (forall c name arguments r,
     In (CallTool c name arguments r) (events_since s s') ->
     name = toolName /\ arguments = callArgs_if_not_null props) /\
  (forall config s1,
     inherited_member serverName = false ->
     registry_get servers serverName = Some config ->
     ensure_client env config serverName s = (Normal tt, s1) ->
     exists c r,
       In (CallTool c toolName (callArgs_if_not_null props) r) (events_since s s')) /\
  (rawArguments = Some (dq "{'name':'t','foo':'bar'}") ->
   toolName = "t" /\ callArgs_if_not_null props = VObj [("foo", VStr "bar")]).
Proof.
  intros Hrun Hparse Hname.
  pose proof (parsed_invocation_object _ _ _ Hparse Hname) as Hinv.
  split; [|split].
  - intros c name arguments r Hin.
    invert_run Hrun; compute_events; event_cases Hin; split; congruence.
  - intros config s1 _ Hreg Hens. apply ensure_client_outcome in Hens.
    destruct (routed_outcome _ _ _ _ _ _ _ _ _ _ _ Hreg Hinv Hrun)
      as [(e & He & ->) | (s1' & He & Hcall)].
    + inversion Hens; inversion He; subst; congruence.
    + inversion Hcall; subst; inversion He; subst; compute_events; eauto 10;
        rewrite ?lookup_insert_eq in *; congruence.
  - intros ->. simpl in Hparse. vm_compute in Hparse. injection Hparse as <-.
    vm_compute in Hname. split; [congruence | reflexivity].
Qed.

Lemma call_arguments_witness :
  exists c r,
    In (CallTool c "t" (VObj [("foo", VStr "bar")]) r)
       (events_since initial_state
          (snd (handleMcpFunctionCall (demo_env (Normal (VObj []))) demo_servers "a"
                  (Some (dq "{'name':'t','foo':'bar'}")) "call_1" initial_state))).
Proof.
  pose (env := demo_env (Normal (VObj []))).
  pose (run := handleMcpFunctionCall env demo_servers "a"
                 (Some (dq "{'name':'t','foo':'bar'}")) "call_1" initial_state).
  pose (config := {| url := "http://localhost:3001/sse" |}).
  refine (proj1 (proj2 (call_arguments env demo_servers "a"
                          (Some (dq "{'name':'t','foo':'bar'}")) "call_1"
                          initial_state (snd run) (fst run)
                          [("name", VStr "t"); ("foo", VStr "bar")] "t" _ _ _))
            config (snd (ensure_client env config "a" initial_state)) _ _ _).
  - vm_compute. reflexivity.
  - vm_compute. reflexivity.
  - reflexivity.
  - reflexivity.
  - reflexivity.
  - vm_compute. reflexivity.
Defined.

(** C7 as stated fails: a payload whose [args] field is present with the
    value [null] is not invoked with that field but with the remaining
    fields, [??] treating [null] as a missing value. *)
Lemma null_args_are_replaced :
  let raw := dq "{'name':'t','args':null,'foo':'bar'}" in
  let props := [("name", VStr "t"); ("args", VNull); ("foo", VStr "bar")] in
  let env := demo_env (Normal (VObj [])) in
  let run := handleMcpFunctionCall env demo_servers "a" (Some raw) "call_1" initial_state in
  JSON_parse raw = Some (VObj props) /\
  lookup_prop "args" props = Some VNull /\
  callArgs_if_present props = VNull /\
  In (CallTool (connected (new_Client env) "http://localhost:3001/sse") "t"
        (VObj [("foo", VStr "bar")]) (Normal (VObj [])))
     (events_since initial_state (snd run)) /\
  VObj [("foo", VStr "bar")] <> callArgs_if_present props.
Proof.
  vm_compute. repeat split; try discriminate.
  right; right; left; reflexivity.
Qed.

(** ** Connection establishment failure *)

(** C8. When the connection of a known server has to be established,
    the server having no client in the cache and its name not being that of
    a member of [Object.prototype], and the establishment fails, the URL
    not parsing or the connect step throwing or rejecting, the failure is
    not caught: the call ends with that very error, no tool is called, and
    the cache is left as it was, without an entry for the server. *)
Theorem connection_failure_propagates (env : Env) (servers : Registry)
  (serverName : string) (rawArguments : option string) (callId : string) (s : State)
  (config : ServerConfig) (e : thrown) :
  inherited_member serverName = false ->
  registry_get servers serverName = Some config ->
  parsed_invocation rawArguments <> None ->
  mcpClients s !! serverName = None ->
  establishment_fails env config s e ->
  exists s' : State,
    handleMcpFunctionCall env servers serverName rawArguments callId s = (Abrupt e, s') /\
    mcpClients s' = mcpClients s /\
    mcpClients s' !! serverName = None /\
    filter is_callTool (events_since s s') = [].
Proof.
  intros _ Hreg Hinv Hmiss Hfail.
  destruct (parsed_invocation rawArguments) as [[toolName callArgs]|] eqn:Hp; [|done].
  destruct (handleMcpFunctionCall env servers serverName rawArguments callId s)
    as [res s'] eqn:Hrun.
  exists s'.
  destruct (routed_outcome _ _ _ _ _ _ _ _ _ _ _ Hreg Hp Hrun)
    as [(e0 & He & ->) | (s1 & He & Hcall)];
    destruct Hfail as [[Hurl ->] | [Hurl Hconn]];
    inversion He; subst; try congruence; compute_events; repeat split; try done;
    congruence.
Qed.

Lemma connection_failure_propagates_witness :
  exists s' : State,
    handleMcpFunctionCall offline_env demo_servers "a"
      (Some (dq "{'name':'echo','args':{'x':1}}")) "call_1" initial_state
    = (Abrupt (ErrorObj "Error" "SSE error: connection refused"), s') /\
    mcpClients s' = mcpClients initial_state /\
    mcpClients s' !! "a" = None /\
    filter is_callTool (events_since initial_state s') = [].
Proof.
  apply (connection_failure_propagates offline_env demo_servers "a"
           (Some (dq "{'name':'echo','args':{'x':1}}")) "call_1" initial_state
           {| url := "http://localhost:3001/sse" |}).
  - reflexivity.
  - reflexivity.
  - vm_compute. discriminate.
  - reflexivity.
  - right. split; reflexivity.
Defined.

(** ** The connection cache *)

Lemma history_grows (env : Env) (servers : Registry) (serverName : string)
  (rawArguments : option string) (callId : string) (s s' : State)
  (res : completion (list FunctionCallOutput)) :
  handleMcpFunctionCall env servers serverName rawArguments callId s = (res, s') ->
  history s' = history s ++ events_since s s'.
Proof.
  intros Hrun. invert_run Hrun; compute_events; rewrite ?app_nil_r; reflexivity.
Qed.

Lemma events_since_trans (s s1 s2 : State) :
  history s1 = history s ++ events_since s s1 ->
  history s2 = history s1 ++ events_since s1 s2 ->
  events_since s s2 = events_since s s1 ++ events_since s1 s2.
Proof.
  intros H1 H2. apply events_since_app. rewrite H2, H1 at 1. by rewrite <- app_assoc.
Qed.

Lemma connects_app (evs evs' : list event) :
  connects (evs ++ evs') = connects evs + connects evs'.
Proof. unfold connects. by rewrite filter_app, length_app. Qed.

(** An entry of the cache is never removed nor replaced. *)
Lemma cache_entry_kept (env : Env) (servers : Registry) (serverName : string)
  (rawArguments : option string) (callId : string) (s s' : State)
  (res : completion (list FunctionCallOutput)) (k : string) (c : Client) :
  handleMcpFunctionCall env servers serverName rawArguments callId s = (res, s') ->
  mcpClients s !! k = Some c ->
  mcpClients s' !! k = Some c.
Proof.
  intros Hrun Hk. invert_run Hrun; simpl; try done;
    (rewrite lookup_insert_ne; [done | congruence]).
Qed.

(** With the client of the server in the cache, a call connects nothing,
    leaves the cache alone and calls tools on that client only. *)
Lemma cache_hit (env : Env) (servers : Registry) (serverName : string)
  (rawArguments : option string) (callId : string) (s s' : State)
  (res : completion (list FunctionCallOutput)) (c : Client) :
  handleMcpFunctionCall env servers serverName rawArguments callId s = (res, s') ->
  mcpClients s !! serverName = Some c ->
  connects (events_since s s') = 0 /\
  mcpClients s' = mcpClients s /\
  forall c' name arguments r,
    In (CallTool c' name arguments r) (events_since s s') -> c' = c.
Proof.
  intros Hrun Hc.
  invert_run Hrun; compute_events; try congruence;
    (split; [reflexivity | split; [reflexivity|]]);
    intros c' name arguments r Hin; event_cases Hin; congruence.
Qed.

(** A new entry is the doing of a routed call for that very server, which
    connected once. *)
Lemma cache_entry_added (env : Env) (servers : Registry) (serverName : string)
  (rawArguments : option string) (callId : string) (s s' : State)
  (res : completion (list FunctionCallOutput)) (k : string) (c : Client) :
  handleMcpFunctionCall env servers serverName rawArguments callId s = (res, s') ->
  mcpClients s !! k = None ->
  mcpClients s' !! k = Some c ->
  k = serverName /\
  registry_get servers serverName <> None /\
  parsed_invocation rawArguments <> None /\
  connects (events_since s s') = 1.
Proof.
  intros Hrun Hk Hk'.
  invert_run Hrun; simpl in Hk'; try congruence;
    (destruct (decide (serverName = k)) as [->|Hne];
     [| rewrite lookup_insert_ne in Hk' by done; congruence]);
    compute_events; repeat split; congruence.
Qed.

(** The first routed call for a server connects exactly once. *)
Lemma first_call_connects (env : Env) (servers : Registry) (serverName : string)
  (rawArguments : option string) (callId : string) (s s' : State)
  (res : list FunctionCallOutput) :
  registry_get servers serverName <> None ->
  parsed_invocation rawArguments <> None ->
  mcpClients s !! serverName = None ->
  handleMcpFunctionCall env servers serverName rawArguments callId s = (Normal res, s') ->
  connects (events_since s s') = 1 /\
  exists c, mcpClients s' !! serverName = Some c.
Proof.
  intros Hreg Hinv Hmiss Hrun.
  destruct (registry_get servers serverName) as [config|] eqn:Hr; [|done].
  destruct (parsed_invocation rawArguments) as [[toolName callArgs]|] eqn:Hp; [|done].
  destruct (routed_outcome _ _ _ _ _ _ _ _ _ _ _ Hr Hp Hrun)
    as [(e & He & Habs) | (s1 & He & Hcall)]; [discriminate|].
  inversion He; subst; try congruence.
  inversion Hcall; subst; compute_events;
    (split; [reflexivity | rewrite lookup_insert_eq; eauto]).
Qed.

(** C5, amended. The cache is filled by insert-if-absent under the
    server name.  Two calls in sequence for the same known server, whose
    name is not that of a member of [Object.prototype], the server not yet
    in the cache, the first call with a well-formed payload and returning,
    make exactly one connection-establishment call on the transport, made
    by the first; the second finds the client of the first in the cache and
    uses it.  An entry, once there, stays as it is, so that a name has at
    most one client ever; an entry appears only through a routed call for
    its server; and the cache starts empty. *)
Theorem connection_cache (env : Env) (servers : Registry) (serverName : string) :
  (forall (raw1 raw2 : option string) (callId1 callId2 : string) (s s1 s2 : State)
          (res1 : list FunctionCallOutput) (res2 : completion (list FunctionCallOutput)),
     inherited_member serverName = false ->
     registry_get servers serverName <> None ->
     parsed_invocation raw1 <> None ->
     mcpClients s !! serverName = None ->
     handleMcpFunctionCall env servers serverName raw1 callId1 s = (Normal res1, s1) ->
     handleMcpFunctionCall env servers serverName raw2 callId2 s1 = (res2, s2) ->
     connects (events_since s s1) = 1 /\
     connects (events_since s1 s2) = 0 /\
     connects (events_since s s2) = 1 /\
     exists c,
       mcpClients s1 !! serverName = Some c /\
       mcpClients s2 !! serverName = Some c /\
       forall c' name arguments r,
         In (CallTool c' name arguments r) (events_since s1 s2) -> c' = c) /\
  (forall (raw : option string) (callId : string) (s s' : State)
          (res : completion (list FunctionCallOutput)) (k : string) (c : Client),
     handleMcpFunctionCall env servers serverName raw callId s = (res, s') ->
     mcpClients s !! k = Some c ->
     mcpClients s' !! k = Some c) /\
  (forall (raw : option string) (callId : string) (s s' : State)
          (res : completion (list FunctionCallOutput)) (k : string) (c : Client),
     handleMcpFunctionCall env servers serverName raw callId s = (res, s') ->
     mcpClients s !! k = None ->
     mcpClients s' !! k = Some c ->
     k = serverName /\
     registry_get servers serverName <> None /\
     parsed_invocation raw <> None /\
     connects (events_since s s') = 1) /\
  mcpClients initial_state = ∅.
Proof.
  split; [|split; [|split]].
  - intros raw1 raw2 callId1 callId2 s s1 s2 res1 res2 _ Hreg Hinv Hmiss Hrun1 Hrun2.
    destruct (first_call_connects _ _ _ _ _ _ _ _ Hreg Hinv Hmiss Hrun1) as [Hone [c Hc]].
    destruct (cache_hit _ _ _ _ _ _ _ _ _ Hrun2 Hc) as (Hzero & Hsame & Huses).
    repeat split; try done.
    + rewrite (events_since_trans s s1 s2)
        by eauto using history_grows.
      rewrite connects_app, Hone, Hzero. reflexivity.
    + exists c. repeat split; try done. by rewrite Hsame.
  - intros raw callId s s' res k c. apply cache_entry_kept.
  - intros raw callId s s' res k c. apply cache_entry_added.
  - reflexivity.
Qed.

Lemma connection_cache_witness :
  let env := demo_env (Normal (VObj [("content", VArr [VObj [("text", VStr "hi")]])])) in
  let raw := Some (dq "{'name':'echo','args':{'x':1}}") in
  let run1 := handleMcpFunctionCall env demo_servers "a" raw "call_1" initial_state in
  let run2 := handleMcpFunctionCall env demo_servers "a" raw "call_2" (snd run1) in
  connects (events_since initial_state (snd run1)) = 1 /\
  connects (events_since (snd run1) (snd run2)) = 0 /\
  connects (events_since initial_state (snd run2)) = 1 /\
  exists c,
    mcpClients (snd run1) !! "a" = Some c /\
    mcpClients (snd run2) !! "a" = Some c /\
    forall c' name arguments r,
      In (CallTool c' name arguments r) (events_since (snd run1) (snd run2)) -> c' = c.
Proof.
  intros env raw run1 run2.
  refine (proj1 (connection_cache env demo_servers "a")
            raw raw "call_1" "call_2" initial_state (snd run1) (snd run2)
            (match fst run1 with Normal r => r | Abrupt _ => [] end) (fst run2)
            _ _ _ _ _ _).
  - reflexivity.
  - vm_compute. discriminate.
  - vm_compute. discriminate.
  - reflexivity.
  - vm_compute. reflexivity.
  - vm_compute. reflexivity.
Defined.

(** C5 as stated fails: when the transport refuses the connection, the
    first call throws and stores nothing, and the second call for the same
    known server, again with a well-formed payload, connects anew: two
    calls, two connection-establishment calls. *)
Lemma refused_connection_is_attempted_twice :
  let raw := Some (dq "{'name':'echo','args':{'x':1}}") in
  let run1 := handleMcpFunctionCall offline_env demo_servers "a" raw "call_1"
                initial_state in
  let run2 := handleMcpFunctionCall offline_env demo_servers "a" raw "call_2" (snd run1) in
  inherited_member "a" = false /\
  registry_get demo_servers "a" <> None /\
  parsed_invocation raw <> None /\
  mcpClients initial_state !! "a" = None /\
  connects (events_since initial_state (snd run1)) = 1 /\
  connects (events_since (snd run1) (snd run2)) = 1 /\
  connects (events_since initial_state (snd run2)) = 2.
Proof.
  vm_compute. repeat split; discriminate.
Qed.

(** ** The duration *)

Lemma Qfloor_hundredths (e : Z) :
  Qfloor (inject_Z e / 100 + (1 # 2)) = ((e + 50) / 100)%Z.
Proof.
  unfold Qfloor, Qdiv, Qplus, Qmult, Qinv, inject_Z; cbn [Qnum Qden].
  change (Z.pos (1 * 100 * 2)) with (100 * 2)%Z.
  change (Z.pos (1 * 100)) with 100%Z.
  replace (e * 1 * 2 + 1 * 100)%Z with ((e + 50) * 2)%Z by lia.
  apply Z.div_mul_cancel_r; lia.
Qed.

(** The seconds computed by the code are the seconds the specification
    words. *)
Lemma duration_refines_spec (start finish : Z) :
  (duration start finish == duration_seconds_spec (finish - start))%Q.
Proof.
  unfold duration, duration_seconds_spec, num_div, num_sub, Math_round.
  rewrite Qred_correct.
  assert (Hx : (Qred (Qred (inject_Z finish - inject_Z start) / 100) + (1 # 2)
                == inject_Z (finish - start) / 100 + (1 # 2))%Q).
  { rewrite !Qred_correct. unfold Qminus.
    rewrite <- inject_Z_opp, <- inject_Z_plus. reflexivity. }
  rewrite (Qfloor_comp _ _ Hx). reflexivity.
Qed.

Lemma duration_seconds_spec_tenths (elapsed : Z) :
  (duration_seconds_spec elapsed == ((elapsed + 50) / 100)%Z # 10)%Q.
Proof.
  unfold duration_seconds_spec. rewrite Qfloor_hundredths.
  unfold Qdiv, Qmult, Qeq. simpl. lia.
Qed.

Lemma duration_seconds_spec_error (elapsed : Z) :
  (Qabs (duration_seconds_spec elapsed - inject_Z elapsed / 1000) <= 1 # 20)%Q.
Proof.
  unfold duration_seconds_spec.
  apply Qabs_Qle_condition.
  pose proof (Qfloor_le (inject_Z elapsed / 100 + (1 # 2))) as Hle.
  pose proof (Qlt_floor (inject_Z elapsed / 100 + (1 # 2))) as Hlt.
  rewrite inject_Z_plus in Hlt.
  set (n := inject_Z (Qfloor (inject_Z elapsed / 100 + (1 # 2)))) in *.
  change (inject_Z 1) with 1%Q in Hlt.
  unfold Qdiv in *.
  change (/ 10)%Q with (1 # 10)%Q.
  change (/ 100)%Q with (1 # 100)%Q in *.
  change (/ 1000)%Q with (1 # 1000)%Q.
  split; lra.
Qed.

Local Arguments SerializeJSON : simpl never.

(** C9. In the success record and in the remote-failure record alike,
    [duration_seconds] is computed from the clock reading [t0] taken before
    the tool call and the reading [t1] taken after it: the elapsed
    milliseconds divided by 100, rounded to the nearest integer, divided by
    10, which is a whole number of tenths of a second and is within half a
    tenth of the elapsed seconds. *)
Theorem duration_seconds_rounding (env : Env) (servers : Registry) (serverName : string)
  (rawArguments : option string) (callId : string) (s s' : State)
  (record : FunctionCallOutput)
  (c : Client) (toolName : string) (callArgs : value) (r : completion value) :
  handleMcpFunctionCall env servers serverName rawArguments callId s
  = (Normal [record], s') ->
  In (CallTool c toolName callArgs r) (events_since s s') ->
  exists (t0 t1 : Z) (out : value) (exit_code : Q) (before : list event),
    events_since s s' = before ++ [Now t0; CallTool c toolName callArgs r; Now t1] /\
    (exit_code = 0%Q \/ exit_code = 1%Q) /\
    output record = SerializeJSON (envelope out exit_code (duration t0 t1)) /\
    (duration t0 t1 == duration_seconds_spec (t1 - t0))%Q /\
    (duration t0 t1 == ((t1 - t0 + 50) / 100)%Z # 10)%Q /\
    (Qabs (duration t0 t1 - inject_Z (t1 - t0) / 1000) <= 1 # 20)%Q.
Proof.
  intros Hrun Hin.
  assert (Hshape :
    exists (t0 t1 : Z) (out : value) (exit_code : Q) (before : list event),
      events_since s s' = before ++ [Now t0; CallTool c toolName callArgs r; Now t1] /\
      (exit_code = 0%Q \/ exit_code = 1%Q) /\
      output record = SerializeJSON (envelope out exit_code (duration t0 t1))).
  { invert_run Hrun; compute_events; event_cases Hin;
      injection Hin as <- <- <- <-;
      first [ eexists _, _, _, _, []; split; [reflexivity|]
            | eexists _, _, _, _, [_]; split; [reflexivity|] ];
      (split; [|reflexivity]); auto. }
  destruct Hshape as (t0 & t1 & out & code & before & Hev & Hcode & Hout).
  exists t0, t1, out, code, before.
  repeat split; try done.
  - apply duration_refines_spec.
  - rewrite duration_refines_spec. apply duration_seconds_spec_tenths.
  - rewrite duration_refines_spec. apply duration_seconds_spec_error.
Qed.

Lemma duration_seconds_rounding_witness :
  let env := demo_env (Abrupt (ErrorObj "Error" "boom")) in
  let raw := Some (dq "{'name':'echo','args':{'x':1}}") in
  let run := handleMcpFunctionCall env demo_servers "a" raw "call_1" initial_state in
  exists (t0 t1 : Z) (out : value) (exit_code : Q) (before : list event),
    events_since initial_state (snd run)
    = before ++ [Now t0;
                 CallTool (connected (new_Client env) "http://localhost:3001/sse")
                   "echo" (VObj [("x", VNum 1)]) (Abrupt (ErrorObj "Error" "boom"));
                 Now t1] /\
    (exit_code = 0%Q \/ exit_code = 1%Q) /\
    output {| type := "function_call_output"; call_id := "call_1";
              output := dq "{'output':'MCP error: boom','metadata':{'exit_code':1,'duration_seconds':0.2}}" |}
    = SerializeJSON (envelope out exit_code (duration t0 t1)) /\
    (duration t0 t1 == duration_seconds_spec (t1 - t0))%Q /\
    (duration t0 t1 == ((t1 - t0 + 50) / 100)%Z # 10)%Q /\
    (Qabs (duration t0 t1 - inject_Z (t1 - t0) / 1000) <= 1 # 20)%Q.
Proof.
  intros env raw run.
  apply (duration_seconds_rounding env demo_servers "a" raw "call_1"
           initial_state (snd run)).
  - vm_compute. reflexivity.
  - vm_compute. right; right; left; reflexivity.
Defined.

(** * Further properties *)

(** ** Calls that are not routed *)

(** X1. A call for a server that is not in the registry and whose name
    is not that of a member of [Object.prototype], or a call whose argument
    string does not parse, or whose parsed payload has a readable [name]
    that is not a string, returns the raw argument string in one record and
    leaves the module as it was: no connection, no tool call, no clock
    reading, no change of the cache. *)
Theorem unroutable_call_is_inert (env : Env) (servers : Registry) (serverName : string)
  (rawArguments : option string) (callId : string) (s s' : State)
  (res : completion (list FunctionCallOutput)) :
  registry_get servers serverName = None /\ inherited_member serverName = false \/
  JSON_parse (default "{}" rawArguments) = None \/
  (exists parsed toolName,
     JSON_parse (default "{}" rawArguments) = Some parsed /\
     Get parsed "name" = Normal toolName /\ is_string toolName = false) ->
  handleMcpFunctionCall env servers serverName rawArguments callId s = (res, s') ->
  res = Normal [ {| type := "function_call_output"; call_id := callId;
                    output := default "{}" rawArguments |} ] /\
  s' = s /\
  events_since s s' = [].
Proof.
  intros Hcase Hrun.
  assert (Hpass : handleMcpFunctionCall env servers serverName rawArguments callId s
                  = (Normal [ {| type := "function_call_output"; call_id := callId;
                                 output := default "{}" rawArguments |} ], s)).
  { apply unroutable_passthrough.
    destruct Hcase as [[H _] | [H | (parsed & toolName & Hp & Hn & Hs)]]; auto.
    right; right. exists parsed, toolName. repeat split; auto.
    intros ->. discriminate. }
  rewrite Hpass in Hrun. injection Hrun as <- <-.
  repeat split. apply events_since_refl.
Qed.

Lemma unroutable_call_is_inert_witness :
  let run := handleMcpFunctionCall (demo_env (Normal VNull)) demo_servers "a"
               (Some (dq "{'name':42,'args':{}}")) "call_1" initial_state in
  fst run = Normal [ {| type := "function_call_output"; call_id := "call_1";
                        output := dq "{'name':42,'args':{}}" |} ] /\
  snd run = initial_state /\
  events_since initial_state (snd run) = [].
Proof.
  intros run.
  apply (unroutable_call_is_inert (demo_env (Normal VNull)) demo_servers "a"
           (Some (dq "{'name':42,'args':{}}")) "call_1" initial_state (snd run) (fst run)).
  - right; right. exists (VObj [("name", VNum 42); ("args", VObj [])]), (VNum 42).
    repeat split; vm_compute; reflexivity.
  - vm_compute. reflexivity.
Defined.

(** X2. Absent arguments are the argument string of the empty object,
    which names no tool: whatever the registry, the server and the state,
    the call returns the single record with output [{}] and does nothing
    else. *)
Theorem absent_arguments_passthrough (env : Env) (servers : Registry)
  (serverName callId : string) (s : State) :
  handleMcpFunctionCall env servers serverName None callId s
  = handleMcpFunctionCall env servers serverName (Some "{}") callId s /\
  handleMcpFunctionCall env servers serverName None callId s
  = (Normal [ {| type := "function_call_output"; call_id := callId; output := "{}" |} ], s).
Proof.
  split; [reflexivity|].
  apply (unroutable_passthrough env servers serverName None callId s).
  right; right. exists (VObj []), VUndefined.
  repeat split; try reflexivity. discriminate.
Qed.

Lemma index_key_not_name (i : nat) : String.eqb "name" (index_key i) = false.
Proof.
  unfold index_key, digits.
  destruct (N.to_uint (Z.to_N (Z.of_nat i))); reflexivity.
Qed.

Lemma indexed_no_name {A : Type} (l : list A) (i : nat) (f : A -> value) :
  lookup_prop "name" (indexed i (map f l)) = None.
Proof.
  revert i. induction l as [|x l IH]; intros i; cbn [map indexed lookup_prop];
    [reflexivity|].
  rewrite index_key_not_name. apply IH.
Qed.

Lemma chars_as_map (s : string) :
  chars s = map (fun c => VStr (String c "")) (list_ascii_of_string s).
Proof. induction s as [|c s IH]; simpl; [reflexivity | by rewrite IH]. Qed.

(** The [name] of a payload that is not an object is [undefined]. *)
Lemma name_of_non_object (v : value) :
  match v with VBool _ | VNum _ | VStr _ | VArr _ => True | _ => False end ->
  Get v "name" = Normal VUndefined.
Proof.
  destruct v as [| |b|q|str|elems|props]; simpl; try done; intros _.
  - rewrite chars_as_map. by rewrite indexed_no_name.
  - rewrite <- (map_id elems). by rewrite indexed_no_name.
Qed.

(** X3. Only an object can name a tool: an argument string that parses to
    a number, a string, a boolean or an array is never routed, for a known
    server as for an unknown one; the call returns the raw string in one
    record and leaves the module as it was. *)
Theorem non_object_payload_passthrough (env : Env) (servers : Registry)
  (serverName : string) (rawArguments : option string) (callId : string) (s : State)
  (parsed : value) :
  JSON_parse (default "{}" rawArguments) = Some parsed ->
  match parsed with VBool _ | VNum _ | VStr _ | VArr _ => True | _ => False end ->
  handleMcpFunctionCall env servers serverName rawArguments callId s
  = (Normal [ {| type := "function_call_output"; call_id := callId;
                 output := default "{}" rawArguments |} ], s).
Proof.
  intros Hparse Hshape.
  apply unroutable_passthrough.
  right; right. exists parsed, VUndefined.
  repeat split; auto using name_of_non_object.
  intros ->. done.
Qed.

Lemma non_object_payload_passthrough_witness :
  handleMcpFunctionCall (demo_env (Normal VNull)) demo_servers "a"
    (Some (dq "['name','echo']")) "call_1" initial_state
  = (Normal [ {| type := "function_call_output"; call_id := "call_1";
                 output := dq "['name','echo']" |} ], initial_state).
Proof.
  apply (non_object_payload_passthrough (demo_env (Normal VNull)) demo_servers "a"
           (Some (dq "['name','echo']")) "call_1" initial_state
           (VArr [VStr "name"; VStr "echo"])).
  - vm_compute. reflexivity.
  - exact I.
Defined.

(** ** The interaction with the outside world *)

(** X4. For a server whose name is not that of a member of
    [Object.prototype], what a call does to the outside world has one of
    three shapes: nothing at all; one refused connection and nothing else;
    or, after at most one established connection, one clock reading, one
    tool call on the client the cache holds for the server, and a second
    clock reading unless the call ends abruptly.  So a call connects at
    most once, calls at most one tool, and never calls a tool before it has
    connected. *)
Theorem interaction_protocol (env : Env) (servers : Registry) (serverName : string)
  (rawArguments : option string) (callId : string) (s s' : State)
  (res : completion (list FunctionCallOutput)) :
  inherited_member serverName = false ->
  handleMcpFunctionCall env servers serverName rawArguments callId s = (res, s') ->
  (events_since s s' = [] \/
   (exists u e, events_since s s' = [Connect (new_Client env) u (Abrupt e)] /\
                res = Abrupt e) \/
   (exists pre t0 c toolName callArgs r post,
      events_since s s' = pre ++ [Now t0; CallTool c toolName callArgs r] ++ post /\
      (pre = [] \/ exists u, pre = [Connect (new_Client env) u (Normal tt)]) /\
      (post = [] /\ (exists e, res = Abrupt e) \/
       exists t1 record, post = [Now t1] /\ res = Normal [record]) /\
      mcpClients s' !! serverName = Some c)) /\
  connects (events_since s s') <= 1 /\
  callTools (events_since s s') <= 1.
Proof.
  intros _ Hrun.
  invert_run Hrun; compute_events;
    rewrite ?lookup_insert_eq in *; try congruence;
    (split; [| unfold connects, callTools; simpl; lia]);
    try (left; reflexivity);
    try (right; left; eauto; fail);
    right; right.
  all: repeat match goal with
         | Ha : ?x = Some ?a, Hb : ?x = Some ?b |- _ =>
             assert (b = a) as -> by congruence; clear Hb
         end.
  all: first
    [ eexists [], _, _, _, _, _, [_]; split; [reflexivity|];
      split; [by left|]; split; [right; eauto | done]
    | eexists [], _, _, _, _, _, []; split; [reflexivity|];
      split; [by left|]; split; [left; eauto | done]
    | eexists [_], _, _, _, _, _, [_]; split; [reflexivity|];
      split; [right; eauto|]; split; [right; eauto | by rewrite ?lookup_insert_eq]
    | eexists [_], _, _, _, _, _, []; split; [reflexivity|];
      split; [right; eauto|]; split; [left; eauto | by rewrite ?lookup_insert_eq] ].
Qed.

Lemma interaction_protocol_witness :
  let env := demo_env (Normal (VObj [("content", VArr [VObj [("text", VStr "hi")]])])) in
  let run := handleMcpFunctionCall env demo_servers "a"
               (Some (dq "{'name':'echo','args':{'x':1}}")) "call_1" initial_state in
  (events_since initial_state (snd run) = [] \/
   (exists u e, events_since initial_state (snd run)
                = [Connect (new_Client env) u (Abrupt e)] /\
                fst run = Abrupt e) \/
   (exists pre t0 c toolName callArgs r post,
      events_since initial_state (snd run)
      = pre ++ [Now t0; CallTool c toolName callArgs r] ++ post /\
      (pre = [] \/ exists u, pre = [Connect (new_Client env) u (Normal tt)]) /\
      (post = [] /\ (exists e, fst run = Abrupt e) \/
       exists t1 record, post = [Now t1] /\ fst run = Normal [record]) /\
      mcpClients (snd run) !! "a" = Some c)) /\
  connects (events_since initial_state (snd run)) <= 1 /\
  callTools (events_since initial_state (snd run)) <= 1.
Proof.
  intros env run.
  apply (interaction_protocol env demo_servers "a"
           (Some (dq "{'name':'echo','args':{'x':1}}")) "call_1" initial_state).
  - reflexivity.
  - vm_compute. reflexivity.
Defined.

(** X5. A tool invocation is always made for a known server, with the
    tool name and the arguments of the parsed payload, on the client that
    the cache holds for that server after the call, a client that is
    connected to a transport. *)
Theorem tool_call_provenance (env : Env) (servers : Registry) (serverName : string)
  (rawArguments : option string) (callId : string) (s s' : State)
  (res : completion (list FunctionCallOutput))
  (c : Client) (toolName : string) (callArgs : value) (r : completion value) :
  handleMcpFunctionCall env servers serverName rawArguments callId s = (res, s') ->
  In (CallTool c toolName callArgs r) (events_since s s') ->
  registry_get servers serverName <> None /\
  parsed_invocation rawArguments = Some (toolName, callArgs) /\
  mcpClients s' !! serverName = Some c /\
  (mcpClients s !! serverName = Some c \/
   mcpClients s !! serverName = None /\
   exists config, registry_get servers serverName = Some config /\
                  c = connected (new_Client env) (url config)).
Proof.
  intros Hrun Hin.
  invert_run Hrun; compute_events; event_cases Hin;
    injection Hin as <- <- <- <-;
    rewrite ?lookup_insert_eq in *;
    repeat split; try congruence;
    try (left; congruence);
    right; (split; [done|]); eexists; (split; [eassumption | congruence]).
Qed.

Lemma tool_call_provenance_witness :
  let env := demo_env (Normal (VObj [])) in
  let raw := Some (dq "{'name':'t','foo':'bar'}") in
  let run := handleMcpFunctionCall env demo_servers "b" raw "call_1" initial_state in
  let c := connected (new_Client env) "http://localhost:3002/sse" in
  registry_get demo_servers "b" <> None /\
  parsed_invocation raw = Some ("t", VObj [("foo", VStr "bar")]) /\
  mcpClients (snd run) !! "b" = Some c /\
  (mcpClients initial_state !! "b" = Some c \/
   mcpClients initial_state !! "b" = None /\
   exists config, registry_get demo_servers "b" = Some config /\
                  c = connected (new_Client env) (url config)).
Proof.
  intros env raw run c.
  apply (tool_call_provenance env demo_servers "b" raw "call_1" initial_state (snd run)
           (fst run) c "t" (VObj [("foo", VStr "bar")]) (Normal (VObj []))).
  - vm_compute. reflexivity.
  - vm_compute. right; right; left; reflexivity.
Defined.

(** ** Exceptions *)

(** X6. For a server whose name is not that of a member of
    [Object.prototype], an exception leaves the function in three cases
    only: the argument string of a call for a known server parses to
    [null]; the connection of a server not yet in the cache cannot be
    established, and then the cache is unchanged; or the tool call rejects
    with a value that is not an [Error] and that [String] cannot convert.
    In particular a response that cannot be formatted never makes the call
    throw. *)
Theorem escaping_exceptions (env : Env) (servers : Registry) (serverName : string)
  (rawArguments : option string) (callId : string) (s s' : State) (e : thrown) :
  inherited_member serverName = false ->
  handleMcpFunctionCall env servers serverName rawArguments callId s = (Abrupt e, s') ->
  (registry_get servers serverName <> None /\
   JSON_parse (default "{}" rawArguments) = Some VNull /\ s' = s) \/
  (exists config,
     registry_get servers serverName = Some config /\
     mcpClients s !! serverName = None /\
     establishment_fails env config s e /\
     mcpClients s' = mcpClients s) \/
  (exists c toolName callArgs v,
     In (CallTool c toolName callArgs (Abrupt (ThrownValue v))) (events_since s s') /\
     ToString v = Abrupt e).
Proof.
  intros _ Hrun.
  apply handleMcpFunctionCall_outcome in Hrun.
  inversion Hrun; subst.
  - (* the payload cannot be destructured *)
    left. split; [congruence|]. split; [|reflexivity].
    destruct parsed; simpl in *; try discriminate; [|done].
    exfalso. by eapply JSON_parse_defined.
  - (* no connection *)
    right; left. exists config.
    match goal with He : ensure_outcome _ _ _ _ _ _ |- _ => inversion He; subst end;
      repeat split; auto; unfold establishment_fails; auto.
  - (* the tool call *)
    right; right.
    match goal with Hc : call_outcome _ _ _ _ _ _ _ _ |- _ => inversion Hc; subst end.
    match goal with
    | Ht : try_result ?r = Abrupt ?e0, Hm : error_message ?e0 = Abrupt _ |- _ =>
        destruct r as [response|e1] eqn:Hr; simpl in Ht;
        [ apply outputText_abrupt in Ht as [message ->]; discriminate
        | injection Ht as ->; destruct e0 as [n m|v]; simpl in Hm; [discriminate|] ]
    end.
    exists c, toolName, callArgs, v. split; [|done].
    match goal with He : ensure_outcome _ _ _ _ _ _ |- _ => inversion He; subst end;
      compute_events; auto.
Qed.

Lemma escaping_exceptions_witness :
  let raw := Some (dq "{'name':'echo','args':{'x':1}}") in
  let e := ErrorObj "Error" "SSE error: connection refused" in
  let s' := extend initial_state
              [Connect (new_Client offline_env) "http://localhost:3001/sse" (Abrupt e)] in
  (registry_get demo_servers "a" <> None /\
   JSON_parse (default "{}" raw) = Some VNull /\ s' = initial_state) \/
  (exists config,
     registry_get demo_servers "a" = Some config /\
     mcpClients initial_state !! "a" = None /\
     establishment_fails offline_env config initial_state e /\
     mcpClients s' = mcpClients initial_state) \/
  (exists c toolName callArgs v,
     In (CallTool c toolName callArgs (Abrupt (ThrownValue v)))
        (events_since initial_state s') /\
     ToString v = Abrupt e).
Proof.
  intros raw e s'.
  apply (escaping_exceptions offline_env demo_servers "a" raw "call_1" initial_state s' e).
  - reflexivity.
  - vm_compute. reflexivity.
Defined.

(** X7. With a transport that behaves, the function always returns: if
    the URL of the server is valid, connections are never refused and tool
    calls reject with [Error]s only, then every call whose argument string
    does not parse to [null] returns exactly one record, whatever the
    state, the payload and the response. *)
Theorem returns_when_transport_behaves (env : Env) (servers : Registry)
  (serverName : string) (rawArguments : option string) (callId : string) (s : State) :
  (forall config, registry_get servers serverName = Some config ->
                  URL_valid env (url config) = true) ->
  (forall h c u e, connect env h c u <> Abrupt e) ->
  (forall h c name arguments v, callTool env h c name arguments <> Abrupt (ThrownValue v)) ->
  JSON_parse (default "{}" rawArguments) <> Some VNull ->
  exists record s',
    handleMcpFunctionCall env servers serverName rawArguments callId s
    = (Normal [record], s').
Proof.
  intros Hurl Hconn Hcall Hnull.
  destruct (handleMcpFunctionCall env servers serverName rawArguments callId s)
    as [res s'] eqn:Hrun.
  apply handleMcpFunctionCall_outcome in Hrun.
  inversion Hrun; subst; unfold formatRaw; eauto.
  - exfalso. destruct parsed; simpl in *; try discriminate; [|done].
    by eapply JSON_parse_defined.
  - exfalso.
    match goal with He : ensure_outcome _ _ _ _ _ _ |- _ => inversion He; subst end.
    + match goal with Hv : URL_valid _ _ = false |- _ => rewrite Hurl in Hv by done end.
      discriminate.
    + by eapply Hconn.
  - match goal with Hc : call_outcome _ _ _ _ _ _ _ _ |- _ => inversion Hc; subst end;
      eauto.
    exfalso.
    match goal with
    | Ht : try_result ?r = Abrupt ?e0, Hm : error_message ?e0 = Abrupt _ |- _ =>
        destruct r as [response|e1] eqn:Hr; simpl in Ht;
        [ apply outputText_abrupt in Ht as [message ->]; discriminate
        | injection Ht as ->; destruct e0 as [n m|v]; simpl in Hm; [discriminate|] ]
    end.
    by eapply Hcall.
Qed.

Lemma returns_when_transport_behaves_witness :
  exists record s',
    handleMcpFunctionCall (demo_env (Normal (VArr [VNull]))) demo_servers "a"
      (Some (dq "{'name':'echo'}")) "call_1" initial_state
    = (Normal [record], s').
Proof.
  apply (returns_when_transport_behaves (demo_env (Normal (VArr [VNull]))) demo_servers "a"
           (Some (dq "{'name':'echo'}")) "call_1" initial_state).
  - reflexivity.
  - discriminate.
  - discriminate.
  - vm_compute. discriminate.
Defined.

(** ** The cache, further *)

(** X8. A call changes the cache in one way only: it adds, under the
    name of a known server that had no entry, the client constructed with
    [ORIGIN] and [CLI_VERSION] and connected to the URL the registry gives
    for that server, after a connection to that URL was established.  The
    entries of all other servers are as they were. *)
Theorem cache_update_shape (env : Env) (servers : Registry) (serverName : string)
  (rawArguments : option string) (callId : string) (s s' : State)
  (res : completion (list FunctionCallOutput)) :
  handleMcpFunctionCall env servers serverName rawArguments callId s = (res, s') ->
  (mcpClients s' = mcpClients s \/
   exists config,
     registry_get servers serverName = Some config /\
     mcpClients s !! serverName = None /\
     mcpClients s'
     = <[serverName := {| client_name := ORIGIN env;
                          client_version := CLI_VERSION env;
                          client_transport := Some (url config) |}]> (mcpClients s) /\
     In (Connect (new_Client env) (url config) (Normal tt)) (events_since s s')) /\
  (forall k, k <> serverName -> mcpClients s' !! k = mcpClients s !! k).
Proof.
  intros Hrun.
  invert_run Hrun; compute_events;
    (split; [| intros k Hk; simpl; rewrite ?lookup_insert_ne by done; reflexivity]);
    try (left; reflexivity);
    right; eexists; repeat split; eauto.
Qed.

Lemma cache_update_shape_witness :
  let env := demo_env (Normal (VObj [])) in
  let run := handleMcpFunctionCall env demo_servers "a" (Some (dq "{'name':'t'}"))
               "call_1" initial_state in
  (mcpClients (snd run) = mcpClients initial_state \/
   exists config,
     registry_get demo_servers "a" = Some config /\
     mcpClients initial_state !! "a" = None /\
     mcpClients (snd run)
     = <["a" := {| client_name := ORIGIN env;
                   client_version := CLI_VERSION env;
                   client_transport := Some (url config) |}]> (mcpClients initial_state) /\
     In (Connect (new_Client env) (url config) (Normal tt))
        (events_since initial_state (snd run))) /\
  (forall k, k <> "a" -> mcpClients (snd run) !! k = mcpClients initial_state !! k).
Proof.
  intros env run.
  apply (cache_update_shape env demo_servers "a" (Some (dq "{'name':'t'}")) "call_1"
           initial_state (snd run) (fst run)).
  vm_compute. reflexivity.
Defined.

Lemma ensure_client_cached (env : Env) (config : ServerConfig) (serverName : string)
  (s : State) (c : Client) :
  mcpClients s !! serverName = Some c ->
  ensure_client env config serverName s = (Normal tt, s).
Proof. intros Hc. unfold ensure_client, bind, get_client. by rewrite Hc. Qed.

(** X9. Once the client of a server is in the cache, a call for that
    server consults neither the URL of the registry, nor the URL parser,
    nor [connect]: with another URL for the server, another parser and
    another [connect] the call returns the same result and leaves the same
    state, and it makes no connection. *)
Theorem cached_client_short_circuits (env : Env) (servers servers' : Registry)
  (serverName : string) (rawArguments : option string) (callId : string) (s : State)
  (c : Client) (valid : string -> bool)
  (conn : list event -> Client -> string -> completion unit) :
  mcpClients s !! serverName = Some c ->
  registry_get servers serverName <> None ->
  registry_get servers' serverName <> None ->
  handleMcpFunctionCall (with_connection env valid conn) servers' serverName rawArguments
    callId s
  = handleMcpFunctionCall env servers serverName rawArguments callId s /\
  connects (events_since s
              (snd (handleMcpFunctionCall env servers serverName rawArguments callId s)))
  = 0.
Proof.
  intros Hc Hreg Hreg'.
  split.
  - unfold handleMcpFunctionCall.
    destruct (registry_get servers serverName) as [config|]; [|done].
    destruct (registry_get servers' serverName) as [config'|]; [|done].
    destruct (JSON_parse (default "{}" rawArguments)) as [parsed|]; [|reflexivity].
    unfold bind at 1 3, lift.
    destruct (destructure parsed) as [[[toolName args] other]|e]; [|reflexivity].
    destruct toolName; try reflexivity.
    unfold bind.
    by rewrite !(ensure_client_cached _ _ _ _ _ Hc).
  - destruct (handleMcpFunctionCall env servers serverName rawArguments callId s)
      as [res s'] eqn:Hrun.
    simpl. by destruct (cache_hit _ _ _ _ _ _ _ _ _ Hrun Hc) as [Hzero _].
Qed.

Lemma cached_client_short_circuits_witness :
  let env := demo_env (Normal (VObj [])) in
  let raw := Some (dq "{'name':'t'}") in
  let s := snd (handleMcpFunctionCall env demo_servers "a" raw "call_1" initial_state) in
  handleMcpFunctionCall
    (with_connection env (fun _ => false) (fun _ _ _ => Abrupt (ThrownValue VNull)))
    [("a", {| url := "not a url" |})] "a" raw "call_2" s
  = handleMcpFunctionCall env demo_servers "a" raw "call_2" s /\
  connects (events_since s
              (snd (handleMcpFunctionCall env demo_servers "a" raw "call_2" s)))
  = 0.
Proof.
  intros env raw s.
  apply (cached_client_short_circuits env demo_servers [("a", {| url := "not a url" |})]
           "a" raw "call_2" s
           (connected (new_Client env) "http://localhost:3001/sse")).
  - vm_compute. reflexivity.
  - vm_compute. discriminate.
  - vm_compute. discriminate.
Defined.

(** ** The call id *)

Lemma call_tool_and_format_relabel (env : Env) (callId callId' serverName toolName : string)
  (callArgs : value) (s : State) :
  call_tool_and_format env callId' serverName toolName callArgs s
  = (relabel_result callId'
       (fst (call_tool_and_format env callId serverName toolName callArgs s)),
     snd (call_tool_and_format env callId serverName toolName callArgs s)).
Proof.
  unfold call_tool_and_format, bind, try_catch, now, get_client, client_callTool, lift, ret.
  simpl.
  destruct (mcpClients s !! serverName) as [c|]; simpl; [|reflexivity].
  destruct (callTool env _ c toolName callArgs) as [response|e]; simpl.
  - destruct (outputText response) as [text|e]; simpl; [reflexivity|].
    destruct (error_message e); reflexivity.
  - destruct (error_message e); reflexivity.
Qed.

(** X10. The call id is only echoed: a call with another call id does
    the same to the cache and to the outside world and returns the same
    records but for their [call_id], or throws the same exception. *)
Theorem call_id_is_only_echoed (env : Env) (servers : Registry) (serverName : string)
  (rawArguments : option string) (callId callId' : string) (s : State) :
  handleMcpFunctionCall env servers serverName rawArguments callId' s
  = (relabel_result callId'
       (fst (handleMcpFunctionCall env servers serverName rawArguments callId s)),
     snd (handleMcpFunctionCall env servers serverName rawArguments callId s)).
Proof.
  unfold handleMcpFunctionCall.
  destruct (registry_get servers serverName) as [config|]; [|reflexivity].
  destruct (JSON_parse (default "{}" rawArguments)) as [parsed|]; [|reflexivity].
  unfold bind at 1 3 5, lift.
  destruct (destructure parsed) as [[[toolName args] other]|e]; [|reflexivity].
  destruct toolName; try reflexivity.
  unfold bind.
  destruct (ensure_client env config serverName s) as [[[]|e] s1]; [|reflexivity].
  apply call_tool_and_format_relabel.
Qed.

(** ** Any number of calls *)

Lemma established_app (evs evs' : list event) :
  established (evs ++ evs') = established evs + established evs'.
Proof. unfold established. by rewrite filter_app, length_app. Qed.

(** X11. As long as calls do not overlap, each call being awaited before
    the next is made, then however many calls were made since the module
    was loaded, for whatever servers, with whatever arguments and outcomes,
    the cache holds exactly as many clients as connections were
    established: no server was connected twice, and no established
    connection was dropped.  Every client in the cache was constructed with
    [ORIGIN] and [CLI_VERSION] and is connected to a URL to which the
    history shows an established connection. *)
Theorem cache_matches_established_connections (env : Env) (s : State) :
  reachable env s ->
  size (mcpClients s) = established (history s) /\
  forall k c,
    mcpClients s !! k = Some c ->
    exists u,
      c = {| client_name := ORIGIN env; client_version := CLI_VERSION env;
             client_transport := Some u |} /\
      In (Connect (new_Client env) u (Normal tt)) (history s).
Proof.
  induction 1 as [|servers serverName rawArguments callId s res s' Hreach [IHsize IHin] Hrun].
  - split; [reflexivity|]. intros k c Hk. simpl in Hk. by rewrite lookup_empty in Hk.
  - invert_run Hrun; simpl;
      rewrite ?established_app, ?map_size_insert_None by done;
      (split; [unfold established in *; simpl; lia|]);
      intros k cl Hk;
      first
        [ destruct (IHin k cl Hk) as (u & -> & Hu); exists u;
          split; [reflexivity | rewrite ?in_app_iff; auto]
        | destruct (decide (serverName = k)) as [->|Hne];
          [ rewrite lookup_insert_eq in Hk; injection Hk as <-;
            exists (url config); split; [reflexivity|];
            rewrite ?in_app_iff; simpl; auto
          | rewrite lookup_insert_ne in Hk by done;
            destruct (IHin k cl Hk) as (u & -> & Hu); exists u;
            split; [reflexivity | rewrite ?in_app_iff; auto] ] ].
Qed.

Lemma cache_matches_established_connections_witness :
  let env := demo_env (Normal (VObj [])) in
  let s1 := snd (handleMcpFunctionCall env demo_servers "a" (Some (dq "{'name':'t'}"))
                   "call_1" initial_state) in
  let s2 := snd (handleMcpFunctionCall env demo_servers "b" (Some (dq "{'name':'u'}"))
                   "call_2" s1) in
  let s3 := snd (handleMcpFunctionCall env demo_servers "a" (Some "null") "call_3" s2) in
  size (mcpClients s3) = established (history s3) /\
  forall k c,
    mcpClients s3 !! k = Some c ->
    exists u,
      c = {| client_name := ORIGIN env; client_version := CLI_VERSION env;
             client_transport := Some u |} /\
      In (Connect (new_Client env) u (Normal tt)) (history s3).
Proof.
  intros env s1 s2 s3.
  apply (cache_matches_established_connections env s3).
  eapply reachable_call; [eapply reachable_call; [eapply reachable_call;
    [apply reachable_initial|] |] |]; apply surjective_pairing.
Defined.

(** ** The duration, further *)

Lemma duration_tenths (start finish : Z) :
  (duration start finish == ((finish - start + 50) / 100)%Z # 10)%Q.
Proof. rewrite duration_refines_spec. apply duration_seconds_spec_tenths. Qed.

(** X12. The duration follows the clock: it is not negative when the
    clock did not go backwards, it does not decrease when the second
    reading is later, and it is zero exactly when the elapsed time is in
    the 100 ms window from -50 ms (included) to 50 ms (excluded). *)
Theorem duration_follows_clock (start finish finish' : Z) :
  ((start <= finish)%Z -> (0 <= duration start finish)%Q) /\
  ((finish <= finish')%Z -> (duration start finish <= duration start finish')%Q) /\
  ((duration start finish == 0)%Q <-> (-50 <= finish - start < 50)%Z).
Proof.
  rewrite !duration_tenths.
  unfold Qle, Qeq; simpl.
  split; [|split].
  - intros H. assert (0 <= (finish - start + 50) / 100)%Z by (apply Z.div_pos; lia). lia.
  - intros H.
    assert ((finish - start + 50) / 100 <= (finish' - start + 50) / 100)%Z
      by (apply Z.div_le_mono; lia).
    lia.
  - pose proof (Z.div_mod (finish - start + 50) 100 ltac:(lia)) as Hdm.
    pose proof (Z.mod_pos_bound (finish - start + 50) 100 ltac:(lia)) as Hb.
    lia.
Qed.

Lemma duration_follows_clock_witness :
  (0 <= duration 1000 1250)%Q /\
  (duration 1000 1250 <= duration 1000 1260)%Q /\
  ((duration 1000 1049 == 0)%Q <-> (-50 <= 1049 - 1000 < 50)%Z).
Proof.
  destruct (duration_follows_clock 1000 1250 1260) as (Hpos & Hmono & _).
  destruct (duration_follows_clock 1000 1049 1049) as (_ & _ & Hzero).
  split; [apply Hpos; lia | split; [apply Hmono; lia | exact Hzero]].
Defined.

(** ** The schema generator and the router together *)

Lemma tool_definition_name (serverName : string) :
  Get (tool_definition serverName) "name" = Normal (VStr serverName).
Proof. reflexivity. Qed.

(** X13. For a name that is not that of a member of [Object.prototype],
    the functions the schema generator offers are exactly the servers the
    router knows: a descriptor named [k] is among the definitions of a
    registry if and only if the router, given that registry, does not
    treat [k] as an unknown server. *)
Theorem definitions_name_the_known_servers (servers : Registry) (k : string) :
  inherited_member k = false ->
  (exists d, In d (getMcpToolDefinitions (Some servers)) /\
             Get d "name" = Normal (VStr k))
  <-> registry_get servers k <> None.
Proof.
  intros _.
  induction servers as [|[k' config] servers IH]; simpl.
  - split; [intros (d & [] & _) | done].
  - destruct (String.eqb_spec k k') as [->|Hne].
    + split; [done|]. intros _. exists (tool_definition k'). split; [by left|].
      apply tool_definition_name.
    + rewrite <- IH. split.
      * intros (d & [<- | Hin] & Hname).
        -- rewrite tool_definition_name in Hname. congruence.
        -- eauto.
      * intros (d & Hin & Hname). eauto.
Qed.

Lemma definitions_name_the_known_servers_witness :
  (exists d, In d (getMcpToolDefinitions (Some demo_servers)) /\
             Get d "name" = Normal (VStr "b"))
  <-> registry_get demo_servers "b" <> None.
Proof.
  apply (definitions_name_the_known_servers demo_servers "b").
  reflexivity.
Defined.

(** X14. Distinct servers get distinct functions: if the keys of the
    registry are pairwise distinct, so are the descriptors, and so are
    their names. *)
Theorem definitions_are_distinct (servers : Registry) :
  NoDup (map fst servers) ->
  NoDup (getMcpToolDefinitions (Some servers)) /\
  forall i j d d' name,
    getMcpToolDefinitions (Some servers) !! i = Some d ->
    getMcpToolDefinitions (Some servers) !! j = Some d' ->
    Get d "name" = Normal name -> Get d' "name" = Normal name ->
    i = j.
Proof.
  intros Hnodup.
  assert (Hdefs : getMcpToolDefinitions (Some servers)
                  = map tool_definition (map fst servers)).
  { simpl. rewrite map_map. apply map_ext. by intros []. }
  rewrite Hdefs. clear Hdefs.
  assert (Hinj : forall a b, tool_definition a = tool_definition b -> a = b)
    by (intros a b Heq; injection Heq as ->; reflexivity).
  split.
  - apply NoDup_fmap_2; [|done]. intros a b. apply Hinj.
  - intros i j d d' name Hi Hj Hd Hd'.
    apply list_lookup_fmap_Some in Hi as (a & -> & Ha).
    apply list_lookup_fmap_Some in Hj as (b & -> & Hb).
    rewrite tool_definition_name in Hd, Hd'.
    assert (a = b) as -> by congruence.
    eapply NoDup_lookup; eauto.
Qed.

Lemma definitions_are_distinct_witness :
  NoDup (getMcpToolDefinitions (Some demo_servers)) /\
  forall i j d d' name,
    getMcpToolDefinitions (Some demo_servers) !! i = Some d ->
    getMcpToolDefinitions (Some demo_servers) !! j = Some d' ->
    Get d "name" = Normal name -> Get d' "name" = Normal name ->
    i = j.
Proof.
  apply (definitions_are_distinct demo_servers).
  simpl. by apply (bool_decide_unpack _).
Defined.

(** ** The output text, further *)

Lemma join_lines (texts : list value) (lines : list string) (sep : string) :
  Forall2 (fun t l => t = VStr l \/ is_nullish t = true /\ l = "") texts lines ->
  Array_join texts sep = Normal (String.concat sep lines).
Proof.
  unfold Array_join.
  induction 1 as [|t l texts lines Ht Hrest IH]; [reflexivity|].
  assert (Hhead : (if is_nullish t then Normal "" else ToString t) = Normal l).
  { destruct Ht as [-> | [Hn ->]]; [reflexivity | by rewrite Hn]. }
  cbn [join_with]. rewrite Hhead.
  destruct Hrest as [|t' l' texts' lines' Ht' Hrest']; [reflexivity|].
  rewrite IH. reflexivity.
Qed.

Lemma line_of_text (c : value) (l : string) :
  line_of c = Some l ->
  exists t, Get c "text" = Normal t /\ (t = VStr l \/ is_nullish t = true /\ l = "").
Proof.
  destruct c as [| |b|q|str|elems|props]; simpl; try discriminate.
  destruct (lookup_prop "text" props) as [[| |b|q|str|elems|props']|]; simpl;
    try discriminate; intros [= <-]; eauto.
Qed.

(** X15. The output text has one line per content element: for a
    response whose [content] is an array of objects, each with a string
    [text] or with a missing or [null] [text], the text is the lines of the
    elements separated by newlines, a missing or [null] text giving an
    empty line; an empty array gives the empty text. *)
Theorem output_text_lines (response : value) (content : list value) (lines : list string) :
  Get response "content" = Normal (VArr content) ->
  Forall2 (fun c l => line_of c = Some l) content lines ->
  outputText response = Normal (VStr (String.concat LF lines)).
Proof.
  intros Hc Hlines.
  assert (Htexts : exists texts,
            Forall2 (fun c t => Get c "text" = Normal t) content texts /\
            Forall2 (fun t l => t = VStr l \/ is_nullish t = true /\ l = "") texts lines).
  { clear Hc. induction Hlines as [|c l cs ls Hl _ IH].
    - exists []. split; constructor.
    - destruct IH as (texts & IH1 & IH2).
      apply line_of_text in Hl as (t & Ht & Hshape).
      exists (t :: texts). split; by constructor. }
  destruct Htexts as (texts & Hget & Hshape).
  eapply outputText_joined; eauto using join_lines.
Qed.

Lemma output_text_lines_witness :
  outputText (VObj [("content", VArr [VObj [("type", VStr "image")];
                                      VObj [("text", VStr "a")];
                                      VObj [("text", VNull)]])])
  = Normal (VStr (String.concat LF [""; "a"; ""])).
Proof.
  apply (output_text_lines _ [VObj [("type", VStr "image")]; VObj [("text", VStr "a")];
                              VObj [("text", VNull)]]).
  - reflexivity.
  - repeat constructor.
Defined.

Lemma map_text_nullish (content : list value) :
  Exists (fun c => is_nullish c = true) content ->
  exists message,
    map_text content = Abrupt (TypeError message) /\
    (message = "Cannot read properties of null (reading 'text')" \/
     message = "Cannot read properties of undefined (reading 'text')").
Proof.
  induction 1 as [c rest Hc | c rest _ IH].
  - destruct c; try discriminate; simpl; eauto.
  - destruct IH as (message & Hm & Hshape).
    destruct c; simpl; eauto; rewrite Hm; eauto.
Qed.

(** X16. A [null] or [undefined] element in the [content] array of a
    response does not make the call throw: reading its [text] fails
    inside the [try] block, and the call returns the [exit_code] 1 record
    whose output is [MCP error: ] followed by the message of that
    [TypeError]. *)
Theorem unreadable_content_element (env : Env) (servers : Registry) (serverName : string)
  (rawArguments : option string) (callId : string) (s s' : State)
  (res : completion (list FunctionCallOutput))
  (c : Client) (toolName : string) (callArgs response : value) (content : list value) :
  handleMcpFunctionCall env servers serverName rawArguments callId s = (res, s') ->
  In (CallTool c toolName callArgs (Normal response)) (events_since s s') ->
  Get response "content" = Normal (VArr content) ->
  Exists (fun x => is_nullish x = true) content ->
  exists (message : string) (t0 t1 : Z),
    res = Normal [ {| type := "function_call_output"; call_id := callId;
                      output := SerializeJSON
                                  (envelope (VStr ("MCP error: " +:+ message)) 1
                                     (duration t0 t1)) |} ] /\
    (message = "Cannot read properties of null (reading 'text')" \/
     message = "Cannot read properties of undefined (reading 'text')").
Proof.
  intros Hrun Hin Hc Hex.
  destruct (map_text_nullish content Hex) as (message & Hm & Hshape).
  destruct (response_record _ _ _ _ _ _ _ _ _ _ _ _ Hrun Hin) as [_ Hfail].
  destruct (Hfail (TypeError message) message) as (t0 & t1 & ->).
  - unfold outputText. by rewrite Hc, Hm.
  - reflexivity.
  - exists message, t0, t1. split; [reflexivity | exact Hshape].
Qed.

Lemma unreadable_content_element_witness :
  let response := VObj [("content", VArr [VObj [("text", VStr "a")]; VNull])] in
  let run := handleMcpFunctionCall (demo_env (Normal response)) demo_servers "a"
               (Some (dq "{'name':'t'}")) "call_1" initial_state in
  exists (message : string) (t0 t1 : Z),
    fst run = Normal [ {| type := "function_call_output"; call_id := "call_1";
                          output := SerializeJSON
                                      (envelope (VStr ("MCP error: " +:+ message)) 1
                                         (duration t0 t1)) |} ] /\
    (message = "Cannot read properties of null (reading 'text')" \/
     message = "Cannot read properties of undefined (reading 'text')").
Proof.
  intros response run.
  apply (unreadable_content_element (demo_env (Normal response)) demo_servers "a"
           (Some (dq "{'name':'t'}")) "call_1" initial_state (snd run) (fst run)
           (connected (new_Client (demo_env (Normal response))) "http://localhost:3001/sse")
           "t" (VObj []) response [VObj [("text", VStr "a")]; VNull]).
  - vm_compute. reflexivity.
  - vm_compute. right; right; left; reflexivity.
  - reflexivity.
  - apply Exists_cons_tl, Exists_cons_hd. reflexivity.
Defined.

(** ** Flat arguments *)

Lemma lookup_rest_fields (k : string) (props : list (string * value)) :
  lookup_prop k (rest_fields props)
  = if String.eqb k "name" || String.eqb k "args" then None else lookup_prop k props.
Proof.
  unfold rest_fields.
  induction props as [|[k' v] props IH]; [simpl; by destruct (_ || _)|].
  rewrite filter_cons.
  destruct (decide _) as [Hkeep|Hdrop]; cbn [lookup_prop fst] in *.
  - destruct (String.eqb_spec k k') as [->|Hne]; [|exact IH].
    apply Is_true_true in Hkeep. apply negb_true_iff in Hkeep.
    by rewrite Hkeep.
  - rewrite IH.
    destruct (String.eqb_spec k k') as [->|Hne]; [|reflexivity].
    apply Is_true_false in Hdrop. apply negb_false_iff in Hdrop.
    by rewrite Hdrop.
Qed.

(** X17. When the payload has no [args] field, or a [null] one, the tool
    is invoked with an object holding the other top-level fields of the
    payload with their values, and neither [name] nor [args]: the tool
    never sees the routing field [name] among its arguments. *)
Theorem flat_arguments_exclude_name (env : Env) (servers : Registry) (serverName : string)
  (rawArguments : option string) (callId : string) (s s' : State)
  (res : completion (list FunctionCallOutput))
  (props : list (string * value)) (toolName : string)
  (c : Client) (name : string) (arguments : value) (r : completion value) :
  handleMcpFunctionCall env servers serverName rawArguments callId s = (res, s') ->
  JSON_parse (default "{}" rawArguments) = Some (VObj props) ->
  lookup_prop "name" props = Some (VStr toolName) ->
  lookup_prop "args" props = None \/ lookup_prop "args" props = Some VNull ->
  In (CallTool c name arguments r) (events_since s s') ->
  exists rest,
    arguments = VObj rest /\
    Get arguments "name" = Normal VUndefined /\
    Get arguments "args" = Normal VUndefined /\
    forall k, k <> "name" -> k <> "args" -> lookup_prop k rest = lookup_prop k props.
Proof.
  intros Hrun Hparse Hname Hargs Hin.
  destruct (tool_called_only_when_routed _ _ _ _ _ _ _ _ _ _ _ _ Hrun Hin) as [_ Hinv].
  rewrite (parsed_invocation_object _ _ _ Hparse Hname) in Hinv.
  injection Hinv as <- <-.
  exists (rest_fields props).
  assert (callArgs_if_not_null props = VObj (rest_fields props)) as ->.
  { unfold callArgs_if_not_null. by destruct Hargs as [-> | ->]. }
  repeat split; simpl; rewrite ?lookup_rest_fields; try reflexivity.
  intros k Hk1 Hk2. rewrite lookup_rest_fields.
  destruct (String.eqb_spec k "name"); [done|].
  destruct (String.eqb_spec k "args"); [done|]. reflexivity.
Qed.

Lemma flat_arguments_exclude_name_witness :
  let env := demo_env (Normal (VObj [])) in
  let raw := Some (dq "{'name':'t','args':null,'foo':'bar'}") in
  let props := [("name", VStr "t"); ("args", VNull); ("foo", VStr "bar")] in
  exists rest,
    VObj [("foo", VStr "bar")] = VObj rest /\
    Get (VObj [("foo", VStr "bar")]) "name" = Normal VUndefined /\
    Get (VObj [("foo", VStr "bar")]) "args" = Normal VUndefined /\
    forall k, k <> "name" -> k <> "args" -> lookup_prop k rest = lookup_prop k props.
Proof.
  intros env raw props.
  pose (run := handleMcpFunctionCall env demo_servers "a" raw "call_1" initial_state).
  apply (flat_arguments_exclude_name env demo_servers "a" raw "call_1" initial_state
           (snd run) (fst run) props "t"
           (connected (new_Client env) "http://localhost:3001/sse") "t"
           (VObj [("foo", VStr "bar")]) (Normal (VObj []))).
  - vm_compute. reflexivity.
  - vm_compute. reflexivity.
  - reflexivity.
  - right. reflexivity.
  - vm_compute. right; right; left; reflexivity.
Defined.

(** ** Failed connections *)

(** X18. A failed connection is not remembered: after a call in which the
    connection of a server was refused, the next call for that server with
    a well-formed payload and a valid URL connects again, once. *)
Theorem failed_connection_is_retried (env : Env) (servers : Registry) (serverName : string)
  (raw1 raw2 : option string) (callId1 callId2 : string) (s s1 s2 : State)
  (res1 res2 : completion (list FunctionCallOutput))
  (config : ServerConfig) (c : Client) (u : string) (e : thrown) :
  handleMcpFunctionCall env servers serverName raw1 callId1 s = (res1, s1) ->
  In (Connect c u (Abrupt e)) (events_since s s1) ->
  registry_get servers serverName = Some config ->
  URL_valid env (url config) = true ->
  parsed_invocation raw2 <> None ->
  handleMcpFunctionCall env servers serverName raw2 callId2 s1 = (res2, s2) ->
  mcpClients s1 !! serverName = None /\
  connects (events_since s1 s2) = 1 /\
  exists r, In (Connect (new_Client env) (url config) r) (events_since s1 s2).
Proof.
  intros Hrun1 Hin Hreg Hurl Hinv Hrun2.
  assert (Hmiss : mcpClients s1 !! serverName = None).
  { invert_run Hrun1; compute_events; event_cases Hin; done. }
  split; [exact Hmiss|].
  destruct (parsed_invocation raw2) as [[toolName callArgs]|] eqn:Hp; [|done].
  destruct (routed_outcome _ _ _ _ _ _ _ _ _ _ _ Hreg Hp Hrun2)
    as [(e0 & He & ->) | (s1' & He & Hcall)].
  - inversion He; subst; try congruence. compute_events. eauto.
  - inversion He; subst; try congruence.
    inversion Hcall; subst; compute_events;
      rewrite ?lookup_insert_eq in *; try congruence; eauto.
Qed.

Lemma failed_connection_is_retried_witness :
  let raw := Some (dq "{'name':'echo','args':{'x':1}}") in
  let s1 := snd (handleMcpFunctionCall offline_env demo_servers "a" raw "call_1"
                   initial_state) in
  let s2 := snd (handleMcpFunctionCall offline_env demo_servers "a" raw "call_2" s1) in
  mcpClients s1 !! "a" = None /\
  connects (events_since s1 s2) = 1 /\
  exists r, In (Connect (new_Client offline_env) "http://localhost:3001/sse" r)
               (events_since s1 s2).
Proof.
  intros raw s1 s2.
  apply (failed_connection_is_retried offline_env demo_servers "a" raw raw
           "call_1" "call_2" initial_state s1 s2
           (fst (handleMcpFunctionCall offline_env demo_servers "a" raw "call_1"
                   initial_state))
           (fst (handleMcpFunctionCall offline_env demo_servers "a" raw "call_2" s1))
           {| url := "http://localhost:3001/sse" |}
           (new_Client offline_env) "http://localhost:3001/sse"
           (ErrorObj "Error" "SSE error: connection refused")).
  - vm_compute. reflexivity.
  - vm_compute. left. reflexivity.
  - reflexivity.
  - reflexivity.
  - vm_compute. discriminate.
  - vm_compute. reflexivity.
Defined.
